(** * Link budget calculator: the RF formulas, the look-angle solver and the
  orchestrator, embedded over the real numbers.

  Python floats are idealised as real numbers: rounding, overflow and
  underflow are not modelled.  What is modelled is the control flow of the
  source, the order in which it evaluates, and every place where the
  Python runtime raises instead of returning: a failed [assert], an
  explicit [raise ValueError], a float division by zero, a [math] function
  called outside its domain, arithmetic on [None]. *)

From Stdlib Require Import Reals Lra Lia List String ZArith Bool.
Import ListNotations.

Open Scope R_scope.

(** ** The fragment of the Python runtime the source relies on *)
Module Py.

(** Exceptions, by class.  A [ValueError] carries its message, so that the
    ones the source raises by hand can be told apart from the domain
    errors of the [math] module. *)
Inductive exn : Type :=
| ValueError (msg : string)
| ZeroDivisionError
| TypeError
| AssertionError
| IndexError.

Definition math_domain_error : exn := ValueError "math domain error".

Definition is_ValueError (e : exn) : bool :=
  match e with
  | ValueError _ => true
  | _ => false
  end.

(** The outcome of a call: a value, or the exception that ended it. *)
Inductive result (A : Type) : Type :=
| Ok (a : A)
| Raise (e : exn).
Arguments Ok {A} a.
Arguments Raise {A} e.

Definition bind {A B : Type} (c : result A) (k : A -> result B) : result B :=
  match c with
  | Ok a => k a
  | Raise e => Raise e
  end.

Definition raises {A : Type} (c : result A) : Prop :=
  exists e, c = Raise e.

(** [assert cond] *)
Definition py_assert (cond : bool) : result unit :=
  if cond then Ok tt else Raise AssertionError.

(** An operand that may be [None]: arithmetic on [None] is a [TypeError]. *)
Definition operand (o : option R) : result R :=
  match o with
  | Some x => Ok x
  | None => Raise TypeError
  end.

(** [a / b] on floats *)
Definition truediv (a b : R) : result R :=
  if Req_dec_T b 0 then Raise ZeroDivisionError else Ok (a / b).

(** The spacing of the floats around a positive [x]: [2 ^ (e - 52)] where
    [2 ^ e <= x < 2 ^ (e + 1)]. *)
Definition float_spacing (x : R) : R :=
  Rpower 2 (IZR (Int_part (ln x / ln 2) - 52)).

(** [a % m] on floats, for a positive modulus: the result has the sign of
    the modulus.  For a negative [a] it is [m] plus the negative remainder
    of the C library, a float addition: where the sum is closer to [m]
    than half the spacing of the floats there, it rounds to [m] itself,
    and [-1e-20 % 360] is [360.0].  Everywhere else the rounding is of the
    size of the other roundings, and is left out as they are. *)
Definition py_mod (a m : R) : R :=
  let r := m * frac_part (a / m) in
  if Rlt_dec a 0 then
    (if Rlt_dec (m - r) (float_spacing m / 2) then m else r)
  else r.

(** [xs[i]] *)
Definition getitem (xs : list R) (i : nat) : result R :=
  match nth_error xs i with
  | Some x => Ok x
  | None => Raise IndexError
  end.

(** [len(xs)], a Python integer *)
Definition len (xs : list R) : Z := Z.of_nat (List.length xs).

(** *** The [math] module *)

Definition log10 (x : R) : R := ln x / ln 10.
Definition log2 (x : R) : R := ln x / ln 2.

Definition math_log10 (x : R) : result R :=
  if Rlt_dec 0 x then Ok (log10 x) else Raise math_domain_error.

Definition math_log2 (x : R) : result R :=
  if Rlt_dec 0 x then Ok (log2 x) else Raise math_domain_error.

Definition math_sqrt (x : R) : result R :=
  if Rle_dec 0 x then Ok (sqrt x) else Raise math_domain_error.

Definition in_unit_interval (x : R) : {-1 <= x <= 1} + {~ -1 <= x <= 1}.
Proof.
  destruct (Rle_dec (-1) x); [destruct (Rle_dec x 1)|]; [left|right|right]; lra.
Defined.

Definition math_acos (x : R) : result R :=
  if in_unit_interval x then Ok (acos x) else Raise math_domain_error.

Definition math_asin (x : R) : result R :=
  if in_unit_interval x then Ok (asin x) else Raise math_domain_error.

(** [math.atan2(y, x)], the angle of the point [(x, y)] in [(-pi, pi]];
    [atan2(0, 0)] is [0]. *)
Definition math_atan2 (y x : R) : R :=
  if Rlt_dec 0 x then atan (y / x)
  else if Rlt_dec x 0 then
    (if Rle_dec 0 y then atan (y / x) + PI else atan (y / x) - PI)
  else if Rlt_dec 0 y then PI / 2
  else if Rlt_dec y 0 then - (PI / 2)
  else 0.

(** [math.tan].  No float other than 0 is a multiple of pi/2, so the float
    tangent has no pole, and no zero other than at 0: at the float next to
    pi/2 [math.tan] returns a number beyond 1e16, at the float next to pi
    a number within 1e-15 of 0 that is not 0.  [Pole] and [Nil] stand for
    such numbers and carry their sign.  The float next to pi/2 is below
    pi/2 and the float next to pi is below pi: the tangent is positive at
    the first and negative at the second, and the other way round at their
    opposites.  These are the poles and the zeros that a latitude of
    [[-90, 90]] and an angle of [[0, pi]] can reach. *)
Inductive tangent : Type :=
| Tan (t : R)
| Pole (negative : bool)
| Nil (negative : bool).

Definition math_tan (x : R) : tangent :=
  if Req_dec_T (cos x) 0 then Pole (if Rlt_dec 0 x then false else true)
  else if Req_dec_T (sin x) 0 then
    (if Req_dec_T x 0 then Tan 0 else Nil (if Rlt_dec 0 x then true else false))
  else Tan (tan x).

Definition is_negative (y : R) : bool := if Rlt_dec y 0 then true else false.

(** [a / b] for two values of [math.tan], up to rounding.  A number over a
    pole is 0, and so is 0 over a [Nil]: only the float 0.0 raises as a
    divisor.  Any other number over a [Nil], and a pole over a number, are
    beyond every number the solver handles.  A pole over a pole, and a
    [Nil] over a [Nil], are 1 or -1 when the two come from the same
    argument or from opposite ones. *)
Definition tan_truediv (a b : tangent) : result tangent :=
  match a, b with
  | Tan x, Tan y => bind (truediv x y) (fun q => Ok (Tan q))
  | Tan _, Pole _ => Ok (Tan 0)
  | Tan x, Nil n =>
      if Req_dec_T x 0 then Ok (Tan 0) else Ok (Pole (xorb (is_negative x) n))
  | Pole p, Tan y =>
      if Req_dec_T y 0 then Raise ZeroDivisionError
      else Ok (Pole (xorb p (is_negative y)))
  | Pole p, Pole q => Ok (Tan (if xorb p q then -1 else 1))
  | Pole p, Nil n => Ok (Pole (xorb p n))
  | Nil _, Tan y =>
      if Req_dec_T y 0 then Raise ZeroDivisionError else Ok (Tan 0)
  | Nil _, Pole _ => Ok (Tan 0)
  | Nil p, Nil q => Ok (Tan (if xorb p q then -1 else 1))
  end.

(** [math.acos] of such a quotient: a pole is outside [[-1, 1]]. *)
Definition math_acos_tan (t : tangent) : result R :=
  match t with
  | Tan x => math_acos x
  | Pole _ => Raise math_domain_error
  | Nil _ => math_acos 0
  end.

Definition degrees (x : R) : R := x * (180 / PI).
Definition radians (x : R) : R := x * (PI / 180).

(** *** numpy scalars

    A division of a numpy scalar does not raise on a zero divisor: it
    yields an infinity or a NaN (and a warning). *)
Inductive npfloat : Type :=
| Finite (x : R)
| PosInf
| NegInf
| NaN.

Definition np_truediv (a b : R) : npfloat :=
  if Req_dec_T b 0 then
    (if Rlt_dec 0 a then PosInf else if Rlt_dec a 0 then NegInf else NaN)
  else Finite (a / b).

Definition np_atan (x : npfloat) : npfloat :=
  match x with
  | Finite v => Finite (atan v)
  | PosInf => Finite (PI / 2)
  | NegInf => Finite (- (PI / 2))
  | NaN => NaN
  end.

Definition np_degrees (x : npfloat) : npfloat :=
  match x with
  | Finite v => Finite (degrees v)
  | other => other
  end.

End Py.
Export Py.

Declare Scope py_scope.
Delimit Scope py_scope with py.
Notation "x <- c ;; k" := (bind c (fun x => k))
  (at level 61, c at next level, right associativity) : py_scope.
Notation "c ;;; k" := (bind c (fun _ => k))
  (at level 61, right associativity) : py_scope.
Open Scope py_scope.

(** ** linkbudget/util.py *)
Module Util.

(** Modelled from the spec: linkbudget/util.py is not among the sources.
    The spec gives the conversion from decibels to a linear ratio as
    [10^(x/10)]. *)
Definition db_to_abs (x : R) : R := Rpower 10 (x / 10).

End Util.

(** ** linkbudget/calc.py

    A division by a non-zero constant ([T0], [2], [10], [100]) cannot raise
    and is written with the plain division of the reals; every other
    division goes through [truediv]. *)
Module Calc.
Import Util.

Definition SPEED_OF_LIGHT : R := 299792458.
Definition T0 : R := 290.

Definition eirp (tx_power tx_dish_gain : R) : R := tx_power + tx_dish_gain.

Definition path_loss (d freq : R) (radar : bool) (rcs : option R)
    (bistatic : bool) (d_rx : option R) : result R :=
  wavelength <- truediv SPEED_OF_LIGHT freq ;;
  x <- truediv (4 * PI * d) wavelength ;;
  l <- math_log10 x ;;
  let Lfs_one_way_db := 20 * l in
  if radar then
    match rcs with
    | None => Raise (ValueError "Radar cross section required in radar mode")
    | Some rcs =>
        y <- truediv (4 * PI * rcs) (wavelength ^ 2) ;;
        g <- math_log10 y ;;
        let G_obj_db := 10 * g in
        if bistatic then
          match d_rx with
          | None => Raise (ValueError "Rx distance required in bistatic radar mode")
          | Some d_rx =>
              let Lfs_tx_db := Lfs_one_way_db in
              z <- truediv (4 * PI * d_rx) wavelength ;;
              lrx <- math_log10 z ;;
              let Lfs_rx_db := 20 * lrx in
              Ok (Lfs_tx_db + Lfs_rx_db - G_obj_db)
          end
        else Ok (2 * Lfs_one_way_db - G_obj_db)
    end
  else Ok Lfs_one_way_db.

Definition dish_gain (diameter freq : R) : result R :=
  let radius := diameter / 2 in
  let face_area := PI * radius ^ 2 in
  wavelength <- truediv SPEED_OF_LIGHT freq ;;
  gain <- truediv (7 * face_area) (wavelength ^ 2) ;;
  l <- math_log10 gain ;;
  Ok (10 * l).

Definition coax_loss_nf (length_ft Tl : R) : result (R * R) :=
  let loss_db_per_ft := 8 / 100 in
  let loss_db := length_ft * loss_db_per_ft in
  let loss := db_to_abs loss_db in
  let noise_factor := 1 + (Tl / T0) * (loss - 1) in
  l <- math_log10 noise_factor ;;
  let noise_fig := 10 * l in
  Ok (loss_db, noise_fig).

(** The body of [for i, nf in enumerate(nfs[1:])]: [rest] is what remains
    of [nfs[1:]], [i] the index of its head. *)
Fixpoint cascade_loop (gains rest : list R) (i : nat) (F G_prod : R)
    : result R :=
  match rest with
  | [] => Ok F
  | nf :: rest' =>
      let nf_abs := db_to_abs nf in
      g <- getitem gains i ;;
      let G_prod := G_prod * db_to_abs g in
      q <- truediv (nf_abs - 1) G_prod ;;
      cascade_loop gains rest' (S i) (F + q) G_prod
  end.

Definition total_noise_figure (nfs gains : list R) : result R :=
  py_assert (0 <? len nfs)%Z ;;;
  py_assert (0 <? len gains)%Z ;;;
  py_assert (len gains =? len nfs - 1)%Z ;;;
  if (len nfs =? 1)%Z then getitem nfs 0
  else
    nf0 <- getitem nfs 0 ;;
    F <- cascade_loop gains (tl nfs) 0 (db_to_abs nf0) 1 ;;
    l <- math_log10 F ;;
    Ok (10 * l).

Definition noise_fig_to_noise_temp (nf : R) : R :=
  let nf_abs := db_to_abs nf in
  T0 * (nf_abs - 1).

Definition noise_temp_to_noise_fig (Te : R) : result R :=
  let nf_abs := 1 + Te / T0 in
  l <- math_log10 nf_abs ;;
  Ok (10 * l).

Definition rx_sys_noise_temp (Tar Te : R) : R := Tar + Te.

Definition cnr (eirp_db path_loss_db rx_ant_gain_db T_sys_db bw : R)
    : result R :=
  let k_db := -228.6 in
  l <- math_log10 bw ;;
  let bw_db := 10 * l in
  let g_over_t_db := rx_ant_gain_db - T_sys_db in
  Ok (eirp_db - path_loss_db + g_over_t_db - k_db - bw_db).

Definition capacity (snr_db bw : R) : result R :=
  let snr := db_to_abs snr_db in
  l <- math_log2 (1 + snr) ;;
  Ok (bw * l).

End Calc.

(** ** linkbudget/pointing.py *)
Module Pointing.

Definition vec3 : Type := (R * R * R)%type.

Definition sub3 (a b : vec3) : vec3 :=
  let '(a1, a2, a3) := a in
  let '(b1, b2, b3) := b in
  (a1 - b1, a2 - b2, a3 - b3).

Definition dot3 (a b : vec3) : R :=
  let '(a1, a2, a3) := a in
  let '(b1, b2, b3) := b in
  a1 * b1 + a2 * b2 + a3 * b3.

(** [np.linalg.norm] of a 3-vector *)
Definition norm3 (a : vec3) : R := sqrt (dot3 a a).

(** [np.dot] of a 3x3 matrix, given by its rows, and a 3-vector *)
Definition matvec3 (m : vec3 * vec3 * vec3) (v : vec3) : vec3 :=
  let '(r1, r2, r3) := m in
  (dot3 r1 v, dot3 r2 v, dot3 r3 v).

Definition default_sat_alt : R := 35786000.

(** The result of the solvers: elevation (degrees), azimuth (degrees) and
    slant range (m).  The elevation of the ellipsoidal solver comes out of
    a numpy division. *)
Definition angles : Type := (npfloat * R * R)%type.

Definition azimuth_of (a : angles) : R := snd (fst a).
Definition slant_range_of (a : angles) : R := snd a.

Definition _look_angles_ellipsoidal (sat_long rx_long rx_lat rx_height
    sat_alt : R) : result angles :=
  let sat_long := radians sat_long in
  let rx_long := radians rx_long in
  let rx_lat := radians rx_lat in
  let f_inv := 298.257222100882711 in
  let f := 1 / f_inv in
  let e_sq := 2 * f - f ^ 2 in
  let R_eq := 6378137 in
  let r := R_eq + sat_alt in
  s <- math_sqrt (1 - e_sq * sin rx_lat ^ 2) ;;
  N <- truediv R_eq s ;;
  let Ng := 0 in
  let h := Ng + rx_height in
  let x_p := (N + h) * cos rx_long * cos rx_lat in
  let y_p := (N + h) * sin rx_long * cos rx_lat in
  let z_p := (N * (1 - e_sq) + h) * sin rx_lat in
  let x_s := r * cos sat_long in
  let y_s := r * sin sat_long in
  let z_s := 0 in
  let rect_coor := sub3 (x_s, y_s, z_s) (x_p, y_p, z_p) in
  let slant_range := norm3 rect_coor in
  let rot_mtx :=
    ((- sin rx_long, cos rx_long, 0),
     (- sin rx_lat * cos rx_long, - sin rx_lat * sin rx_long, cos rx_lat),
     (cos rx_lat * cos rx_long, cos rx_lat * sin rx_long, sin rx_lat)) in
  let '(e, n, u) := matvec3 rot_mtx rect_coor in
  let azimuth := math_atan2 e n in
  hz <- math_sqrt (e ^ 2 + n ^ 2) ;;
  let vert_angle := np_atan (np_truediv u hz) in
  let azimuth_degrees := py_mod (degrees azimuth) 360 in
  let elevation_degrees := np_degrees vert_angle in
  Ok (elevation_degrees, azimuth_degrees, slant_range).

(** The two tangents of Equation (6) go through [math_tan]: where gamma
    is pi/2, a longitude difference of a quarter turn, or pi, a receiver
    on the equator half a turn from the satellite, the quotient is the 0
    of the float computation, and nothing raises.  The division raises
    where gamma is 0, the receiver on the equator below the satellite. *)
Definition _look_angles_spherical (sat_long rx_long rx_lat sat_alt : R)
    : result angles :=
  let sat_long := radians sat_long in
  let rx_long := radians rx_long in
  let rx_lat := radians rx_lat in
  let R := 6371000 in
  let R_eq := 6378137 in
  let r := R_eq + sat_alt in
  let cos_gamma := cos rx_lat * cos (sat_long - rx_long) in
  gamma <- math_acos cos_gamma ;;
  q <- truediv R r ;;
  s <- math_sqrt (1 + q ^ 2 - 2 * q * cos_gamma) ;;
  let d := r * s in
  rd <- truediv r d ;;
  z <- math_asin (rd * sin gamma) ;;
  let v := 90 - degrees z in
  t <- tan_truediv (math_tan rx_lat) (math_tan gamma) ;;
  b <- math_acos_tan t ;;
  let beta := degrees b in
  let alpha :=
    if Rlt_dec 0 rx_lat then
      (if Rlt_dec sat_long rx_long then 180 + beta else 180 - beta)
    else
      (if Rlt_dec sat_long rx_long then 360 - beta else beta) in
  Ok (Finite v, alpha, d).

(** The calls to [logging.info] that follow the dispatch format three
    floats and leave the result as it is. *)
Definition look_angles (sat_long rx_long rx_lat sat_alt : R)
    (implementation : string) : result angles :=
  if String.eqb implementation "ellipsoidal" then
    _look_angles_ellipsoidal sat_long rx_long rx_lat 0 sat_alt
  else
    _look_angles_spherical sat_long rx_long rx_lat sat_alt.

End Pointing.

(** ** linkbudget/main.py *)
Module Main.
Import Util Calc Pointing.

(** The populated argparse namespace.  A required option is a float; an
    option that may be left out is [None] then. *)
Record Args : Type := {
  json : bool;
  eirp : option R;
  tx_power : option R;
  tx_dish_size : option R;
  tx_dish_gain : option R;
  freq : R;
  if_bw : R;
  rx_dish_size : option R;
  rx_dish_gain : option R;
  antenna_noise_temp : R;
  lnb_noise_fig : option R;
  lnb_noise_temp : option R;
  lnb_gain : R;
  coax_length : R;
  rx_noise_fig : R;
  sat_long : R;
  sat_lat : option R;
  rx_long : R;
  rx_lat : R;
  radar : bool;
  radar_alt : option R;
  radar_cross_section : option R;
  radar_bistatic : bool
}.

(** The dictionary of results. *)
Record Results : Type := {
  pointing : angles;
  eirp_db : R;
  path_loss_db : R;
  rx_dish_gain_db : R;
  noise_fig_db_lnb : R;
  noise_fig_db_coax : R;
  noise_fig_db_total : R;
  noise_temp_k_effective_input : R;
  noise_temp_k_system : R;
  cnr_db : R;
  capacity_bps : R
}.

(** Lines 192-195 of [analyze].  A missing [--radar-alt] reaches the
    solver as [None] and fails at its first use there, [R_eq + sat_alt],
    before anything else of the solver can raise. *)
Definition analyze_pointing (args : Args) : result angles :=
  sat_alt <- (if negb args.(radar) then Ok 35786000
              else operand args.(radar_alt)) ;;
  look_angles args.(sat_long) args.(rx_long) args.(rx_lat) sat_alt
    "ellipsoidal".

(** Lines 197-208 of [analyze]. *)
Definition analyze_eirp (args : Args) : result R :=
  match args.(eirp) with
  | None =>
      tx_gain <- match args.(tx_dish_gain) with
                 | None =>
                     size <- operand args.(tx_dish_size) ;;
                     dish_gain size args.(freq)
                 | Some g => Ok g
                 end ;;
      p <- operand args.(tx_power) ;;
      Ok (Calc.eirp p tx_gain)
  | Some e => Ok e
  end.

(** An invocation for a bistatic radar: a reflector 1000 km above a
    receiver on the equator, at 1.296 GHz, with a cross section of 10 m^2. *)
Definition bistatic_radar_args : Args := {|
  json := false;
  eirp := Some 50;
  tx_power := None;
  tx_dish_size := None;
  tx_dish_gain := None;
  freq := 1296000000;
  if_bw := 1000000;
  rx_dish_size := None;
  rx_dish_gain := Some 35;
  antenna_noise_temp := 30;
  lnb_noise_fig := Some 1;
  lnb_noise_temp := None;
  lnb_gain := 55;
  coax_length := 10;
  rx_noise_fig := 8;
  sat_long := 0;
  sat_lat := None;
  rx_long := 0;
  rx_lat := 0;
  radar := true;
  radar_alt := Some 1000000;
  radar_cross_section := Some 10;
  radar_bistatic := true
|}.

Section Analyze.

(** [util.abs_to_db], of linkbudget/util.py, is not among the sources
    and the spec does not give it: the orchestrator is modelled for any
    such function. *)
Variable abs_to_db : R -> result R.

Definition analyze (args : Args) : result Results :=
  look <- analyze_pointing args ;;
  let slant_range := slant_range_of look in
  eirp <- analyze_eirp args ;;
  path_loss_db <- path_loss slant_range args.(freq) args.(radar)
                    args.(radar_cross_section) args.(radar_bistatic)
                    None ;;
  dish_gain_db <- match args.(rx_dish_gain) with
                  | None =>
                      size <- operand args.(rx_dish_size) ;;
                      dish_gain size args.(freq)
                  | Some g => Ok g
                  end ;;
  coax <- coax_loss_nf args.(coax_length) T0 ;;
  let '(coax_loss_db, coax_noise_fig_db) := coax in
  lnb_noise_fig <- match args.(lnb_noise_fig) with
                   | None =>
                       t <- operand args.(lnb_noise_temp) ;;
                       noise_temp_to_noise_fig t
                   | Some nf => Ok nf
                   end ;;
  noise_fig_db <- total_noise_figure
                    [lnb_noise_fig; coax_noise_fig_db; args.(rx_noise_fig)]
                    [args.(lnb_gain); - coax_loss_db] ;;
  let effective_input_noise_temp := noise_fig_to_noise_temp noise_fig_db in
  let T_syst := rx_sys_noise_temp args.(antenna_noise_temp)
                  effective_input_noise_temp in
  T_syst_db <- abs_to_db T_syst ;;
  cnr <- Calc.cnr eirp path_loss_db dish_gain_db T_syst_db args.(if_bw) ;;
  capacity <- Calc.capacity cnr args.(if_bw) ;;
  Ok {| pointing := look;
        eirp_db := eirp;
        path_loss_db := path_loss_db;
        rx_dish_gain_db := dish_gain_db;
        noise_fig_db_lnb := lnb_noise_fig;
        noise_fig_db_coax := coax_noise_fig_db;
        noise_fig_db_total := noise_fig_db;
        noise_temp_k_effective_input := effective_input_noise_temp;
        noise_temp_k_system := T_syst;
        cnr_db := cnr;
        capacity_bps := capacity |}.

End Analyze.


(** The truth value of an optional float in a condition: [None] and [0.0]
    are false. *)
Definition truthy (o : option R) : bool :=
  match o with
  | Some x => if Req_dec_T x 0 then false else true
  | None => false
  end.

Definition is_None (o : option R) : bool :=
  match o with
  | Some _ => false
  | None => true
  end.

(** [validate(parser, args)].  [parser.error(message)] prints the message
    and leaves the program: [Some message] is the first call of
    [parser.error], [None] the return of [validate]. *)
Definition validate (args : Args) : option string :=
  if truthy args.(tx_power) && is_None args.(tx_dish_size)
     && is_None args.(tx_dish_gain)
  then Some "Define either --tx-dish-size or --tx-dish-gain  using option --tx-power"%string
  else if args.(radar) then
    if is_None args.(radar_alt)
    then Some "Argument --radar-alt is required in radar mode (--radar)"%string
    else if is_None args.(radar_cross_section)
    then Some "Argument --radar-cross-section is required in radar mode (--radar)"%string
    else None
  else None.

(** A satellite downlink at 12 GHz, given by transmit power and no
    transmit antenna. *)
Definition tx_power_args (p : R) : Args := {|
  json := false;
  eirp := None;
  tx_power := Some p;
  tx_dish_size := None;
  tx_dish_gain := None;
  freq := 12000000000;
  if_bw := 1000000;
  rx_dish_size := None;
  rx_dish_gain := Some 35;
  antenna_noise_temp := 30;
  lnb_noise_fig := Some 1;
  lnb_noise_temp := None;
  lnb_gain := 55;
  coax_length := 10;
  rx_noise_fig := 8;
  sat_long := -95;
  sat_lat := None;
  rx_long := -97;
  rx_lat := 33;
  radar := false;
  radar_alt := None;
  radar_cross_section := None;
  radar_bistatic := false
|}.

(** The same downlink, given by its EIRP. *)
Definition downlink_args (f : R) : Args := {|
  json := false;
  eirp := Some 50;
  tx_power := None;
  tx_dish_size := None;
  tx_dish_gain := None;
  freq := f;
  if_bw := 1000000;
  rx_dish_size := None;
  rx_dish_gain := Some 35;
  antenna_noise_temp := 30;
  lnb_noise_fig := Some 1;
  lnb_noise_temp := None;
  lnb_gain := 55;
  coax_length := 10;
  rx_noise_fig := 8;
  sat_long := -95;
  sat_lat := None;
  rx_long := -97;
  rx_lat := 33;
  radar := false;
  radar_alt := None;
  radar_cross_section := None;
  radar_bistatic := false
|}.

End Main.

(** ** The closed formulas the code is compared with *)
Module Formulas.
Import Util Calc.

(** The noise factor of stage [i] and the gain of stage [j], linear. *)
Definition noise_factor (nfs : list R) (i : nat) : R :=
  db_to_abs (nth i nfs 0).

Definition stage_gain (gains : list R) (j : nat) : R :=
  db_to_abs (nth j gains 0).

(** The product of the gains of the first [i] stages. *)
Definition gain_product (gains : list R) (i : nat) : R :=
  fold_right Rmult 1 (map (stage_gain gains) (seq 0 i)).

Definition Rsum (xs : list R) : R := fold_right Rplus 0 xs.

(** Friis' formula, stages counted from 0:
    [F = F_0 + sum over i = 1..N-1 of (F_i - 1) / (G_0 * ... * G_(i-1))]. *)
Definition friis (nfs gains : list R) : R :=
  noise_factor nfs 0 +
  Rsum (map (fun i => (noise_factor nfs i - 1) / gain_product gains i)
            (seq 1 (List.length nfs - 1))).

(** The terms the loop adds, for the stages that remain. *)
Definition tail_terms (gains rest : list R) (i : nat) : list R :=
  map (fun k => (db_to_abs (nth k rest 0) - 1) / gain_product gains (i + k + 1))
      (seq 0 (List.length rest)).

Definition wavelength_of (freq : R) : R := SPEED_OF_LIGHT / freq.

(** One-way free-space loss [20 log10(4 pi x / lambda)] and the gain of
    the radar object [10 log10(4 pi rcs / lambda^2)], in dB. *)
Definition one_way_loss (lambda x : R) : R :=
  20 * log10 (4 * PI * x / lambda).

Definition object_gain (lambda rcs : R) : R :=
  10 * log10 (4 * PI * rcs / lambda ^ 2).

(** The GRS80 eccentricity squared and the radius of curvature in the
    prime vertical at a latitude (radians), as the ellipsoidal solver
    computes them. *)
Definition grs80_e_sq : R :=
  2 * (1 / 298.257222100882711) - (1 / 298.257222100882711) ^ 2.

Definition prime_vertical (lat : R) : R :=
  6378137 / sqrt (1 - grs80_e_sq * sin lat ^ 2).

End Formulas.

(** * Properties *)

(** ** The runtime fragment *)
Module PyFacts.

Lemma truediv_ok (a b : R) : b <> 0 -> truediv a b = Ok (a / b).
Proof.
  intros Hb. unfold truediv. destruct (Req_dec_T b 0); [contradiction | reflexivity].
Qed.

Lemma truediv_zero (a : R) : truediv a 0 = Raise ZeroDivisionError.
Proof.
  unfold truediv. destruct (Req_dec_T 0 0) as [_ | H]; [reflexivity | now elim H].
Qed.

Lemma math_log10_ok (x : R) : 0 < x -> math_log10 x = Ok (log10 x).
Proof.
  intros Hx. unfold math_log10. destruct (Rlt_dec 0 x); [reflexivity | contradiction].
Qed.

Lemma math_log10_domain (x : R) : x <= 0 -> math_log10 x = Raise math_domain_error.
Proof.
  intros Hx. unfold math_log10. destruct (Rlt_dec 0 x); [lra | reflexivity].
Qed.

Lemma math_log10_cases (x : R) :
  math_log10 x = Ok (log10 x) \/ math_log10 x = Raise math_domain_error.
Proof.
  unfold math_log10. destruct (Rlt_dec 0 x); auto.
Qed.

Lemma ln_10_pos : 0 < ln 10.
Proof.
  rewrite <- ln_1. apply ln_increasing; lra.
Qed.

Lemma getitem_nth (xs : list R) (i : nat) :
  (i < List.length xs)%nat -> getitem xs i = Ok (nth i xs 0).
Proof.
  intros Hi. unfold getitem.
  rewrite (nth_error_nth' xs 0 Hi). reflexivity.
Qed.

End PyFacts.

(** ** Decibels *)
Module UtilFacts.
Import Util PyFacts.

Lemma db_to_abs_pos (x : R) : 0 < db_to_abs x.
Proof. unfold db_to_abs, Rpower. apply exp_pos. Qed.

Lemma log10_db_to_abs (x : R) : 10 * log10 (db_to_abs x) = x.
Proof.
  unfold log10, db_to_abs, Rpower. rewrite ln_exp.
  pose proof ln_10_pos. field. lra.
Qed.

Lemma db_to_abs_0 : db_to_abs 0 = 1.
Proof.
  unfold db_to_abs, Rpower.
  replace (0 / 10 * ln 10) with 0 by (unfold Rdiv; ring).
  apply exp_0.
Qed.

Lemma db_to_abs_ge_1 (x : R) : 0 <= x -> 1 <= db_to_abs x.
Proof.
  intros Hx. unfold db_to_abs, Rpower.
  pose proof ln_10_pos as Hl.
  assert (H0 : 0 <= x / 10 * ln 10) by (apply Rmult_le_pos; lra).
  destruct H0 as [H0 | H0].
  - left. rewrite <- exp_0. now apply exp_increasing.
  - rewrite <- H0, exp_0. lra.
Qed.

End UtilFacts.

(** ** The noise cascade *)
Module CascadeFacts.
Import Util Calc Formulas PyFacts UtilFacts.

Lemma Rprod_snoc (xs : list R) (x : R) :
  fold_right Rmult 1 (xs ++ [x]) = fold_right Rmult 1 xs * x.
Proof.
  induction xs as [| y ys IH]; simpl.
  - ring.
  - rewrite IH. ring.
Qed.

Lemma gain_product_S (gains : list R) (i : nat) :
  gain_product gains (S i) = gain_product gains i * stage_gain gains i.
Proof.
  unfold gain_product. rewrite seq_S, map_app. simpl map.
  apply Rprod_snoc.
Qed.

Lemma gain_product_pos (gains : list R) (i : nat) : 0 < gain_product gains i.
Proof.
  induction i as [| i IH].
  - unfold gain_product. simpl. lra.
  - rewrite gain_product_S. apply Rmult_lt_0_compat; [exact IH |].
    apply db_to_abs_pos.
Qed.

Lemma tail_terms_cons (gains rest : list R) (nf : R) (i : nat) :
  Rsum (tail_terms gains (nf :: rest) i)
  = (db_to_abs nf - 1) / gain_product gains (S i)
    + Rsum (tail_terms gains rest (S i)).
Proof.
  unfold tail_terms. simpl List.length.
  rewrite <- cons_seq, <- seq_shift. simpl map. rewrite map_map.
  unfold Rsum. simpl fold_right.
  replace (i + 0 + 1)%nat with (S i) by lia.
  f_equal. f_equal. apply map_ext. intros k.
  replace (i + S k + 1)%nat with (S i + k + 1)%nat by lia. reflexivity.
Qed.

(** The loop invariant: entered at index [i] with the gain product of the
    [i] stages before, the loop ends and has added the remaining terms. *)
Lemma cascade_loop_sum (gains : list R) :
  forall (rest : list R) (i : nat) (F : R),
    (i + List.length rest <= List.length gains)%nat ->
    cascade_loop gains rest i F (gain_product gains i)
    = Ok (F + Rsum (tail_terms gains rest i)).
Proof.
  induction rest as [| nf rest IH]; intros i F Hlen.
  - simpl. unfold tail_terms, Rsum. simpl. f_equal. ring.
  - simpl in Hlen. simpl cascade_loop.
    rewrite getitem_nth by lia. simpl bind.
    fold (stage_gain gains i). rewrite <- gain_product_S.
    rewrite truediv_ok
      by (pose proof (gain_product_pos gains (S i)); lra).
    simpl bind. rewrite IH by lia. f_equal.
    rewrite tail_terms_cons. ring.
Qed.

(** What the loop computes from the first stage on is Friis' sum. *)
Lemma cascade_loop_friis (nf0 : R) (rest gains : list R) :
  List.length gains = List.length rest ->
  cascade_loop gains rest 0 (db_to_abs nf0) 1
  = Ok (friis (nf0 :: rest) gains).
Proof.
  intros Hlen.
  change 1 with (gain_product gains 0) at 1.
  rewrite cascade_loop_sum by (simpl; lia). f_equal.
  unfold friis, noise_factor, tail_terms. simpl nth at 1. f_equal. f_equal.
  replace (List.length (nf0 :: rest) - 1)%nat with (List.length rest)
    by (simpl; lia).
  rewrite <- seq_shift, map_map.
  apply map_ext. intros k. simpl nth.
  replace (0 + k + 1)%nat with (S k) by lia. reflexivity.
Qed.

(** With no stage below 0 dB the cascaded noise factor is at least 1, so
    that its logarithm is defined. *)
Lemma friis_ge_1 (nfs gains : list R) :
  Forall (fun nf => 0 <= nf) nfs -> nfs <> [] -> 1 <= friis nfs gains.
Proof.
  intros Hall Hne. unfold friis.
  assert (H0 : 1 <= noise_factor nfs 0).
  { destruct nfs as [| nf0 rest]; [congruence |].
    unfold noise_factor. simpl. apply db_to_abs_ge_1.
    now inversion Hall. }
  assert (Hs : forall l : list nat,
             0 <= Rsum (map (fun i => (noise_factor nfs i - 1)
                                      / gain_product gains i) l)).
  { unfold Rsum. induction l as [| i l IH]; simpl; [lra |].
    assert (Hi : 1 <= noise_factor nfs i).
    { unfold noise_factor.
      destruct (Nat.lt_ge_cases i (List.length nfs)) as [Hlt | Hge].
      - apply db_to_abs_ge_1.
        rewrite Forall_forall in Hall. apply Hall. now apply nth_In.
      - rewrite nth_overflow by exact Hge. rewrite db_to_abs_0. lra. }
    pose proof (gain_product_pos gains i) as Hg.
    assert (0 <= (noise_factor nfs i - 1) / gain_product gains i).
    { apply Rmult_le_pos; [lra |]. left. now apply Rinv_0_lt_compat. }
    lra. }
  specialize (Hs (seq 1 (List.length nfs - 1))). lra.
Qed.

(** C1 (as the code behaves).  A single noise figure with the empty gain
    list does not come back: the second assertion, [len(gains) > 0],
    fails, and the call ends in an [AssertionError]. *)
Theorem total_noise_figure_single_stage_raises (nf : R) :
  total_noise_figure [nf] [] = Raise AssertionError.
Proof. reflexivity. Qed.

(** No call returns through the single-stage branch: whenever
    [total_noise_figure] returns, the cascade has two stages or more. *)
Lemma total_noise_figure_returns_two_stages (nfs gains : list R) (v : R) :
  total_noise_figure nfs gains = Ok v -> (2 <= List.length nfs)%nat.
Proof.
  unfold total_noise_figure, len, py_assert.
  destruct (0 <? Z.of_nat (List.length nfs))%Z eqn:H1; simpl; [| discriminate].
  destruct (0 <? Z.of_nat (List.length gains))%Z eqn:H2; simpl; [| discriminate].
  destruct (Z.of_nat (List.length gains) =? Z.of_nat (List.length nfs) - 1)%Z
    eqn:H3; simpl; [| discriminate].
  intros _. lia.
Qed.

Lemma total_noise_figure_cascade (nfs gains : list R) :
  (2 <= List.length nfs)%nat ->
  List.length gains = (List.length nfs - 1)%nat ->
  total_noise_figure nfs gains
  = (l <- math_log10 (friis nfs gains) ;; Ok (10 * l)).
Proof.
  intros HN Hg.
  destruct nfs as [| nf0 rest]; [simpl in HN; lia |].
  simpl in HN, Hg. rewrite Nat.sub_0_r in Hg.
  unfold total_noise_figure, len, py_assert.
  replace (0 <? Z.of_nat (List.length (nf0 :: rest)))%Z with true
    by (symmetry; apply Z.ltb_lt; simpl List.length; lia).
  replace (0 <? Z.of_nat (List.length gains))%Z with true
    by (symmetry; apply Z.ltb_lt; lia).
  replace (Z.of_nat (List.length gains)
           =? Z.of_nat (List.length (nf0 :: rest)) - 1)%Z with true
    by (symmetry; apply Z.eqb_eq; simpl List.length; lia).
  replace (Z.of_nat (List.length (nf0 :: rest)) =? 1)%Z with false
    by (symmetry; apply Z.eqb_neq; simpl List.length; lia).
  simpl. rewrite cascade_loop_friis by exact Hg. reflexivity.
Qed.

(** C3.  For N >= 2 noise figures and N-1 gains the code evaluates Friis'
    formula and converts it to dB: it returns [10 log10 F] when [F] is
    positive, and [math.log10] raises its domain error otherwise. *)
Theorem total_noise_figure_friis (nfs gains : list R) :
  (2 <= List.length nfs)%nat ->
  List.length gains = (List.length nfs - 1)%nat ->
  total_noise_figure nfs gains
  = if Rlt_dec 0 (friis nfs gains)
    then Ok (10 * log10 (friis nfs gains))
    else Raise math_domain_error.
Proof.
  intros HN Hg. rewrite total_noise_figure_cascade by assumption.
  unfold math_log10. destruct (Rlt_dec 0 (friis nfs gains)); reflexivity.
Qed.

Lemma total_noise_figure_friis_witness :
  total_noise_figure [1; 2; 8] [55; -1]
  = if Rlt_dec 0 (friis [1; 2; 8] [55; -1])
    then Ok (10 * log10 (friis [1; 2; 8] [55; -1]))
    else Raise math_domain_error.
Proof.
  apply total_noise_figure_friis; simpl; lia.
Defined.

(** For noise figures that are not negative the cascade returns. *)
Lemma total_noise_figure_returns (nfs gains : list R) :
  (2 <= List.length nfs)%nat ->
  List.length gains = (List.length nfs - 1)%nat ->
  Forall (fun nf => 0 <= nf) nfs ->
  total_noise_figure nfs gains = Ok (10 * log10 (friis nfs gains)).
Proof.
  intros HN Hg Hall.
  assert (Hne : nfs <> []) by (destruct nfs; simpl in HN; [lia | discriminate]).
  pose proof (friis_ge_1 nfs gains Hall Hne) as HF.
  rewrite total_noise_figure_cascade by assumption.
  rewrite math_log10_ok by lra. reflexivity.
Qed.

(** C6.  When the number of gains is not the number of noise figures
    minus one, one of the three assertions that open the function fails:
    the call ends in an [AssertionError] and nothing is computed from
    either list. *)
Theorem total_noise_figure_arity_mismatch (nfs gains : list R) :
  len gains <> (len nfs - 1)%Z ->
  total_noise_figure nfs gains = Raise AssertionError.
Proof.
  intros Hne. unfold total_noise_figure, py_assert.
  destruct (0 <? len nfs)%Z; simpl; [| reflexivity].
  destruct (0 <? len gains)%Z; simpl; [| reflexivity].
  destruct (Z.eqb_spec (len gains) (len nfs - 1)) as [Heq | _]; simpl.
  - contradiction.
  - reflexivity.
Qed.

Lemma total_noise_figure_arity_mismatch_witness :
  total_noise_figure [1; 2; 8] [55] = Raise AssertionError.
Proof.
  apply total_noise_figure_arity_mismatch. unfold len. simpl. lia.
Defined.

(** One gain too many is rejected like one too few. *)
Example total_noise_figure_extra_gain :
  total_noise_figure [1; 8] [55; -1] = Raise AssertionError.
Proof. reflexivity. Qed.

End CascadeFacts.

(** ** Noise figure, noise temperature and the coaxial line *)
Module NoiseFacts.
Import Util Calc PyFacts UtilFacts.

Lemma noise_temp_to_noise_fig_ok (Te : R) :
  - T0 < Te ->
  noise_temp_to_noise_fig Te = Ok (10 * log10 (1 + Te / T0)).
Proof.
  intros HTe. unfold noise_temp_to_noise_fig.
  rewrite math_log10_ok; [reflexivity |].
  unfold T0 in *.
  assert (-1 < Te / 290) by (unfold Rdiv; lra). lra.
Qed.

Lemma noise_temp_to_noise_fig_inv (Te nf : R) :
  noise_temp_to_noise_fig Te = Ok nf -> 1 + Te / T0 = db_to_abs nf.
Proof.
  unfold noise_temp_to_noise_fig, math_log10.
  destruct (Rlt_dec 0 (1 + Te / T0)) as [Hpos | Hneg]; simpl; [| discriminate].
  intros H. injection H as <-. unfold log10, db_to_abs, Rpower.
  pose proof ln_10_pos.
  replace (10 * (ln (1 + Te / T0) / ln 10) / 10 * ln 10)
    with (ln (1 + Te / T0)) by (field; lra).
  now rewrite exp_ln.
Qed.

(** C7.  The two conversions are inverse to each other, over the reals:
    a noise figure converted to a noise temperature and back is the noise
    figure again, and whenever a noise temperature has a noise figure,
    converting that back gives the temperature. *)
Theorem noise_fig_noise_temp_inverse :
  (forall nf : R,
      noise_fig_to_noise_temp nf = 290 * (db_to_abs nf - 1)
      /\ noise_temp_to_noise_fig (noise_fig_to_noise_temp nf) = Ok nf)
  /\ (forall Te nf : R,
      noise_temp_to_noise_fig Te = Ok nf ->
      1 + Te / 290 = db_to_abs nf /\ noise_fig_to_noise_temp nf = Te).
Proof.
  split.
  - intros nf. split; [reflexivity |].
    unfold noise_temp_to_noise_fig, noise_fig_to_noise_temp.
    replace (1 + T0 * (db_to_abs nf - 1) / T0) with (db_to_abs nf)
      by (unfold T0; field).
    rewrite math_log10_ok by apply db_to_abs_pos. simpl.
    now rewrite log10_db_to_abs.
  - intros Te nf H. apply noise_temp_to_noise_fig_inv in H.
    unfold noise_fig_to_noise_temp. rewrite <- H.
    unfold T0. split; [reflexivity | field].
Qed.

Lemma noise_fig_noise_temp_inverse_witness :
  noise_temp_to_noise_fig 0 = Ok 0 /\ noise_fig_to_noise_temp 0 = 0.
Proof.
  assert (H0 : noise_temp_to_noise_fig 0 = Ok 0).
  { replace 0 with (noise_fig_to_noise_temp 0) at 1.
    - apply (proj1 noise_fig_noise_temp_inverse 0).
    - unfold noise_fig_to_noise_temp. rewrite db_to_abs_0. ring. }
  split; [exact H0 |].
  exact (proj2 (proj2 noise_fig_noise_temp_inverse 0 0 H0)).
Defined.

(** C8.  The loss of the line is 0.08 dB per foot; its noise figure is
    [10 log10 (1 + (Tl/T0) (loss - 1))] with the linear loss, where that
    logarithm is defined; at [Tl = T0] the noise figure returned is the
    loss returned. *)
Theorem coax_loss_nf_spec (length_ft Tl : R) :
  (let noise_factor := 1 + (Tl / T0) * (db_to_abs (0.08 * length_ft) - 1) in
   coax_loss_nf length_ft Tl
   = if Rlt_dec 0 noise_factor
     then Ok (0.08 * length_ft, 10 * log10 noise_factor)
     else Raise math_domain_error)
  /\ coax_loss_nf length_ft T0 = Ok (0.08 * length_ft, 0.08 * length_ft).
Proof.
  assert (Hdb : length_ft * (8 / 100) = 0.08 * length_ft) by lra.
  split.
  - cbv zeta. unfold coax_loss_nf, math_log10. rewrite Hdb.
    destruct (Rlt_dec 0 (1 + Tl / T0 * (db_to_abs (0.08 * length_ft) - 1)));
      reflexivity.
  - unfold coax_loss_nf. rewrite Hdb.
    replace (1 + T0 / T0 * (db_to_abs (0.08 * length_ft) - 1))
      with (db_to_abs (0.08 * length_ft)) by (unfold T0; field).
    rewrite math_log10_ok by apply db_to_abs_pos. simpl.
    now rewrite log10_db_to_abs.
Qed.

End NoiseFacts.

(** ** Path loss *)
Module PathLossFacts.
Import Util Calc Formulas PyFacts.

Lemma SPEED_OF_LIGHT_pos : 0 < SPEED_OF_LIGHT.
Proof. unfold SPEED_OF_LIGHT. lra. Qed.

Lemma wavelength_nonzero (freq : R) : freq <> 0 -> wavelength_of freq <> 0.
Proof.
  intros Hf. unfold wavelength_of, Rdiv.
  apply Rmult_integral_contrapositive_currified.
  - pose proof SPEED_OF_LIGHT_pos. lra.
  - now apply Rinv_neq_0_compat.
Qed.

Lemma wavelength_pos (freq : R) : 0 < freq -> 0 < wavelength_of freq.
Proof.
  intros Hf. unfold wavelength_of. apply Rdiv_lt_0_compat.
  - apply SPEED_OF_LIGHT_pos.
  - exact Hf.
Qed.

Lemma four_pi_ratio_pos (x lambda : R) :
  0 < x -> 0 < lambda -> 0 < 4 * PI * x / lambda.
Proof.
  intros Hx Hl. pose proof PI_RGT_0.
  apply Rdiv_lt_0_compat; [| exact Hl].
  apply Rmult_lt_0_compat; lra.
Qed.

Lemma four_pi_ratio_nonpos (x lambda : R) :
  x <= 0 -> 0 < lambda -> 4 * PI * x / lambda <= 0.
Proof.
  intros Hx Hl. pose proof PI_RGT_0 as Hpi.
  assert (Hi : 0 < / lambda) by now apply Rinv_0_lt_compat.
  unfold Rdiv.
  replace (4 * PI * x * / lambda) with (- ((4 * PI * / lambda) * - x)) by ring.
  assert (0 <= (4 * PI * / lambda) * - x).
  { apply Rmult_le_pos; [| lra].
    left. apply Rmult_lt_0_compat; [lra | exact Hi]. }
  lra.
Qed.

(** The two lines that open [path_loss], for a frequency that is not 0:
    the wavelength is computed, and the one-way loss is computed or
    [math.log10] raises. *)
Lemma path_loss_prologue (d freq : R) (radar : bool) (rcs : option R)
    (bistatic : bool) (d_rx : option R) :
  freq <> 0 ->
  path_loss d freq radar rcs bistatic d_rx
  = (let wavelength := wavelength_of freq in
     l <- math_log10 (4 * PI * d / wavelength) ;;
     let Lfs_one_way_db := 20 * l in
     if radar then
       match rcs with
       | None => Raise (ValueError "Radar cross section required in radar mode")
       | Some rcs =>
           g <- math_log10 (4 * PI * rcs / wavelength ^ 2) ;;
           let G_obj_db := 10 * g in
           if bistatic then
             match d_rx with
             | None =>
                 Raise (ValueError "Rx distance required in bistatic radar mode")
             | Some d_rx =>
                 lrx <- math_log10 (4 * PI * d_rx / wavelength) ;;
                 Ok (Lfs_one_way_db + 20 * lrx - G_obj_db)
             end
           else Ok (2 * Lfs_one_way_db - G_obj_db)
       end
     else Ok Lfs_one_way_db).
Proof.
  intros Hf. pose proof (wavelength_nonzero freq Hf) as Hw.
  assert (Hw2 : wavelength_of freq ^ 2 <> 0) by now apply pow_nonzero.
  unfold path_loss. rewrite (truediv_ok _ freq Hf).
  fold (wavelength_of freq). cbn [bind].
  rewrite (truediv_ok _ (wavelength_of freq) Hw). cbn [bind].
  destruct (math_log10 (4 * PI * d / wavelength_of freq)); cbn [bind];
    [| reflexivity].
  destruct radar; [| reflexivity].
  destruct rcs as [rcs |]; [| reflexivity].
  rewrite (truediv_ok _ _ Hw2). cbn [bind].
  destruct (math_log10 (4 * PI * rcs / wavelength_of freq ^ 2)); cbn [bind];
    [| reflexivity].
  destruct bistatic; [| reflexivity].
  destruct d_rx as [d_rx |]; [| reflexivity].
  rewrite (truediv_ok _ (wavelength_of freq) Hw). reflexivity.
Qed.

Lemma path_loss_freq_zero (d : R) (radar : bool) (rcs : option R)
    (bistatic : bool) (d_rx : option R) :
  path_loss d 0 radar rcs bistatic d_rx = Raise ZeroDivisionError.
Proof. unfold path_loss. now rewrite truediv_zero. Qed.

(** Radar mode without a cross section never returns.  The exception is a
    [ValueError], unless the frequency is 0 and the division that computes
    the wavelength has raised before. *)
Lemma path_loss_no_rcs (d freq : R) (bistatic : bool) (d_rx : option R) :
  exists e,
    path_loss d freq true None bistatic d_rx = Raise e
    /\ (freq <> 0 -> is_ValueError e = true).
Proof.
  destruct (Req_dec_T freq 0) as [-> | Hf].
  - exists ZeroDivisionError.
    split; [apply path_loss_freq_zero | intros H; now elim H].
  - rewrite path_loss_prologue by exact Hf. cbv zeta.
    destruct (math_log10_cases (4 * PI * d / wavelength_of freq)) as [-> | ->];
      cbn [bind]; eexists; (split; [reflexivity | intros _; reflexivity]).
Qed.

(** Bistatic radar mode without a receiver distance never returns. *)
Lemma path_loss_no_d_rx (d freq : R) (rcs : option R) :
  exists e,
    path_loss d freq true rcs true None = Raise e
    /\ (freq <> 0 -> is_ValueError e = true).
Proof.
  destruct (Req_dec_T freq 0) as [-> | Hf].
  - exists ZeroDivisionError.
    split; [apply path_loss_freq_zero | intros H; now elim H].
  - rewrite path_loss_prologue by exact Hf. cbv zeta.
    destruct (math_log10_cases (4 * PI * d / wavelength_of freq)) as [-> | ->];
      cbn [bind];
      [| eexists; (split; [reflexivity | intros _; reflexivity])].
    destruct rcs as [rcs |];
      [| eexists; (split; [reflexivity | intros _; reflexivity])].
    destruct (math_log10_cases (4 * PI * rcs / wavelength_of freq ^ 2))
      as [-> | ->];
      cbn [bind]; eexists; (split; [reflexivity | intros _; reflexivity]).
Qed.

(** With a positive distance and frequency it is the check of the source
    that fires, with its message. *)
Lemma path_loss_no_rcs_message (d freq : R) (bistatic : bool)
    (d_rx : option R) :
  0 < d -> 0 < freq ->
  path_loss d freq true None bistatic d_rx
  = Raise (ValueError "Radar cross section required in radar mode").
Proof.
  intros Hd Hf. rewrite path_loss_prologue by lra. cbv zeta.
  rewrite math_log10_ok
    by (apply four_pi_ratio_pos; [exact Hd | now apply wavelength_pos]).
  reflexivity.
Qed.

Lemma sq_wavelength_pos (freq : R) : 0 < freq -> 0 < wavelength_of freq ^ 2.
Proof. intros Hf. apply pow_lt. now apply wavelength_pos. Qed.

Lemma path_loss_no_d_rx_message (d freq rcs : R) :
  0 < d -> 0 < freq -> 0 < rcs ->
  path_loss d freq true (Some rcs) true None
  = Raise (ValueError "Rx distance required in bistatic radar mode").
Proof.
  intros Hd Hf Hr. rewrite path_loss_prologue by lra. cbv zeta.
  rewrite math_log10_ok
    by (apply four_pi_ratio_pos; [exact Hd | now apply wavelength_pos]).
  cbn [bind].
  rewrite math_log10_ok
    by (apply four_pi_ratio_pos; [exact Hr | now apply sq_wavelength_pos]).
  reflexivity.
Qed.

(** C5 (as the code behaves).  In radar mode [path_loss] returns no loss
    when the cross section is [None], and none when the radar is bistatic
    and the receiver distance is [None]: the call ends in an exception,
    before any radar loss is computed.  For every frequency other than 0
    the exception is a [ValueError], and for a positive distance,
    frequency and cross section it is the one of the check in the source.
    At the frequency 0 it is the [ZeroDivisionError] of the division that
    computes the wavelength, which comes before the checks. *)
Theorem path_loss_rejects_missing_radar_inputs (d freq : R) :
  (forall (bistatic : bool) (d_rx : option R),
      exists e,
        path_loss d freq true None bistatic d_rx = Raise e
        /\ (freq <> 0 -> is_ValueError e = true)
        /\ (freq = 0 -> e = ZeroDivisionError)
        /\ (0 < d -> 0 < freq ->
            e = ValueError "Radar cross section required in radar mode"))
  /\ (forall rcs : option R,
      exists e,
        path_loss d freq true rcs true None = Raise e
        /\ (freq <> 0 -> is_ValueError e = true)
        /\ (freq = 0 -> e = ZeroDivisionError)
        /\ (forall x : R,
            rcs = Some x -> 0 < d -> 0 < freq -> 0 < x ->
            e = ValueError "Rx distance required in bistatic radar mode")).
Proof.
  split.
  - intros bistatic d_rx.
    destruct (path_loss_no_rcs d freq bistatic d_rx) as (e & He & Hv).
    exists e. repeat split; [exact He | exact Hv | |].
    + intros ->. rewrite path_loss_freq_zero in He. now injection He.
    + intros Hd Hf. rewrite path_loss_no_rcs_message in He by assumption.
      now injection He.
  - intros rcs.
    destruct (path_loss_no_d_rx d freq rcs) as (e & He & Hv).
    exists e. repeat split; [exact He | exact Hv | |].
    + intros ->. rewrite path_loss_freq_zero in He. now injection He.
    + intros x -> Hd Hf Hx.
      rewrite path_loss_no_d_rx_message in He by assumption.
      now injection He.
Qed.

Lemma path_loss_rejects_missing_radar_inputs_witness :
  path_loss 1000000 1296000000 true None false None
  = Raise (ValueError "Radar cross section required in radar mode")
  /\ path_loss 1000000 1296000000 true (Some 10) true None
     = Raise (ValueError "Rx distance required in bistatic radar mode").
Proof.
  destruct (path_loss_rejects_missing_radar_inputs 1000000 1296000000)
    as [H1 H2].
  destruct (H1 false None) as (e1 & He1 & _ & _ & Hm1).
  destruct (H2 (Some 10)) as (e2 & He2 & _ & _ & Hm2).
  rewrite He1, He2, Hm1, (Hm2 10) by (reflexivity || lra).
  split; reflexivity.
Defined.

(** C5, an input on which the exception is not the invalid-input error:
    at the frequency 0 both calls end in the division that computes the
    wavelength. *)
Lemma path_loss_missing_inputs_zero_frequency :
  path_loss 1000000 0 true None false None = Raise ZeroDivisionError
  /\ path_loss 1000000 0 true (Some 10) true None = Raise ZeroDivisionError
  /\ is_ValueError ZeroDivisionError = false.
Proof.
  split; [apply path_loss_freq_zero |].
  split; [apply path_loss_freq_zero | reflexivity].
Qed.

(** A frequency of 0 ends the call in the division, whatever else is
    missing. *)
Example path_loss_zero_frequency :
  path_loss 1000000 0 true None true None = Raise ZeroDivisionError.
Proof. apply path_loss_freq_zero. Qed.

(** C4.  For a positive distance, frequency and cross section: the
    one-way loss [L(d)] without radar, [2 L(d) - G_obj] for a monostatic
    radar, and [L(d) + L(d_rx) - G_obj] for a bistatic radar with a
    positive receiver distance (for one that is not positive,
    [math.log10] raises). *)
Theorem path_loss_formulas (d freq rcs : R) :
  0 < d -> 0 < freq -> 0 < rcs ->
  let lambda := wavelength_of freq in
  let L := one_way_loss lambda in
  let G_obj := object_gain lambda rcs in
  (forall (o_rcs : option R) (bistatic : bool) (o_d_rx : option R),
      path_loss d freq false o_rcs bistatic o_d_rx = Ok (L d))
  /\ (forall o_d_rx : option R,
      path_loss d freq true (Some rcs) false o_d_rx = Ok (2 * L d - G_obj))
  /\ (forall d_rx : R,
      path_loss d freq true (Some rcs) true (Some d_rx)
      = if Rlt_dec 0 d_rx
        then Ok (L d + L d_rx - G_obj)
        else Raise math_domain_error).
Proof.
  intros Hd Hf Hr lambda L G_obj.
  unfold L, G_obj, lambda, one_way_loss, object_gain.
  assert (Hl : 0 < wavelength_of freq) by now apply wavelength_pos.
  assert (H1 : math_log10 (4 * PI * d / wavelength_of freq)
               = Ok (log10 (4 * PI * d / wavelength_of freq)))
    by (apply math_log10_ok; now apply four_pi_ratio_pos).
  assert (H2 : math_log10 (4 * PI * rcs / wavelength_of freq ^ 2)
               = Ok (log10 (4 * PI * rcs / wavelength_of freq ^ 2)))
    by (apply math_log10_ok; apply four_pi_ratio_pos;
        [exact Hr | now apply sq_wavelength_pos]).
  repeat split.
  - intros o_rcs bistatic o_d_rx.
    rewrite path_loss_prologue by lra. cbv zeta. rewrite H1. reflexivity.
  - intros o_d_rx.
    rewrite path_loss_prologue by lra. cbv zeta. rewrite H1. cbn [bind].
    rewrite H2. reflexivity.
  - intros d_rx.
    rewrite path_loss_prologue by lra. cbv zeta. rewrite H1. cbn [bind].
    rewrite H2. cbn [bind].
    destruct (Rlt_dec 0 d_rx) as [Hrx | Hrx].
    + rewrite math_log10_ok by now apply four_pi_ratio_pos. reflexivity.
    + rewrite math_log10_domain
        by (apply four_pi_ratio_nonpos; [lra | exact Hl]).
      reflexivity.
Qed.

Lemma path_loss_formulas_witness :
  let lambda := wavelength_of 1296000000 in
  let L := one_way_loss lambda in
  let G_obj := object_gain lambda 10 in
  path_loss 1000000 1296000000 false None false None = Ok (L 1000000)
  /\ path_loss 1000000 1296000000 true (Some 10) false None
     = Ok (2 * L 1000000 - G_obj)
  /\ path_loss 1000000 1296000000 true (Some 10) true (Some 2000000)
     = Ok (L 1000000 + L 2000000 - G_obj).
Proof.
  destruct (path_loss_formulas 1000000 1296000000 10) as (H1 & H2 & H3);
    [lra | lra | lra |].
  cbv zeta in *. split; [apply H1 |]. split; [apply H2 |].
  rewrite H3. destruct (Rlt_dec 0 2000000); [reflexivity | lra].
Defined.

End PathLossFacts.

(** ** Look angles *)
Module PointingFacts.
Import Pointing PyFacts.

(** The remainder is in the closed interval: the modulus itself is a
    value of the float operation. *)
Lemma py_mod_range (a m : R) : 0 < m -> 0 <= py_mod a m <= m.
Proof.
  intros Hm. unfold py_mod.
  destruct (base_fp (a / m)) as [H0 H1]. apply Rge_le in H0.
  assert (Hr : 0 <= m * frac_part (a / m) < m).
  { split; [apply Rmult_le_pos; lra |].
    assert (H : m * frac_part (a / m) < m * 1)
      by (apply Rmult_lt_compat_l; assumption).
    lra. }
  cbv zeta.
  destruct (Rlt_dec a 0); [destruct (Rlt_dec _ _) |]; lra.
Qed.

Lemma py_mod_small (a m : R) : 0 <= a < m -> py_mod a m = a.
Proof.
  intros [H0 Hm]. unfold py_mod.
  destruct (Rlt_dec a 0) as [H | _]; [lra |].
  unfold frac_part.
  assert (Hq : 0 <= a / m < 1).
  { split.
    - apply Rmult_le_pos; [exact H0 |]. left. apply Rinv_0_lt_compat. lra.
    - apply Rmult_lt_reg_r with m; [lra |].
      unfold Rdiv. rewrite Rmult_assoc, Rinv_l by lra. lra. }
  rewrite <- (Int_part_spec (a / m) 0) by (simpl; lra).
  simpl. field. lra.
Qed.

Lemma float_spacing_360 : float_spacing 360 = / 2 ^ 44.
Proof.
  unfold float_spacing.
  assert (Hl2 : 0 < ln 2) by (pose proof ln_lt_2; lra).
  assert (H8 : ln (2 ^ 8) = 8 * ln 2).
  { rewrite ln_pow by lra. simpl INR. ring. }
  assert (H9 : ln (2 ^ 9) = 9 * ln 2).
  { rewrite ln_pow by lra. simpl INR. ring. }
  assert (Hlo : ln (2 ^ 8) < ln 360) by (apply ln_increasing; lra).
  assert (Hhi : ln 360 < ln (2 ^ 9)) by (apply ln_increasing; lra).
  assert (Hq : 8 <= ln 360 / ln 2 < 9).
  { split.
    - apply Rmult_le_reg_r with (ln 2); [exact Hl2 |].
      unfold Rdiv. rewrite Rmult_assoc, Rinv_l by lra. lra.
    - apply Rmult_lt_reg_r with (ln 2); [exact Hl2 |].
      unfold Rdiv. rewrite Rmult_assoc, Rinv_l by lra. lra. }
  rewrite <- (Int_part_spec (ln 360 / ln 2) 8) by (simpl; lra).
  replace (IZR (8 - 52)) with (- INR 44) by (simpl; lra).
  rewrite Rpower_Ropp, Rpower_pow by lra. reflexivity.
Qed.

(** The remainder reaches the modulus: a negative angle of [2 ^ -50]
    degrees is reduced to 360. *)
Lemma py_mod_tiny_negative : py_mod (- / 2 ^ 50) 360 = 360.
Proof.
  unfold py_mod. rewrite float_spacing_360.
  assert (Hp : 0 < / 2 ^ 50) by (apply Rinv_0_lt_compat; lra).
  destruct (Rlt_dec (- / 2 ^ 50) 0) as [_ | H]; [| lra].
  assert (Hf : frac_part (- / 2 ^ 50 / 360) = 1 - / 2 ^ 50 / 360).
  { unfold frac_part.
    rewrite <- (Int_part_spec (- / 2 ^ 50 / 360) (-1)).
    - simpl. lra.
    - simpl.
      assert (/ 2 ^ 50 < 1)
        by (rewrite <- Rinv_1; apply Rinv_lt_contravar; lra).
      lra. }
  cbv zeta. rewrite Hf.
  destruct (Rlt_dec _ _) as [_ | H]; [reflexivity |].
  exfalso. apply H.
  replace (360 - 360 * (1 - / 2 ^ 50 / 360)) with (/ 2 ^ 50) by (field; lra).
  replace (/ 2 ^ 44 / 2) with (/ 2 ^ 45) by (field; lra).
  apply Rinv_lt_contravar; lra.
Qed.

Lemma degrees_PI : degrees PI = 180.
Proof. unfold degrees. pose proof PI_RGT_0. field. lra. Qed.

Lemma degrees_0 : degrees 0 = 0.
Proof. unfold degrees. ring. Qed.

Lemma degrees_le (x y : R) : x <= y -> degrees x <= degrees y.
Proof.
  intros Hxy. unfold degrees. apply Rmult_le_compat_r; [| exact Hxy].
  pose proof PI_RGT_0. left. apply Rdiv_lt_0_compat; lra.
Qed.

Lemma math_acos_ok (x : R) : -1 <= x <= 1 -> math_acos x = Ok (acos x).
Proof.
  intros Hx. unfold math_acos.
  destruct (in_unit_interval x); [reflexivity | contradiction].
Qed.

Lemma math_asin_ok (x : R) : -1 <= x <= 1 -> math_asin x = Ok (asin x).
Proof.
  intros Hx. unfold math_asin.
  destruct (in_unit_interval x); [reflexivity | contradiction].
Qed.

Lemma math_sqrt_ok (x : R) : 0 <= x -> math_sqrt x = Ok (sqrt x).
Proof.
  intros Hx. unfold math_sqrt.
  destruct (Rle_dec 0 x); [reflexivity | contradiction].
Qed.

Lemma math_tan_ok (x : R) :
  cos x <> 0 -> sin x <> 0 -> math_tan x = Tan (tan x).
Proof.
  intros Hc Hs. unfold math_tan.
  destruct (Req_dec_T (cos x) 0); [contradiction |].
  destruct (Req_dec_T (sin x) 0); [contradiction | reflexivity].
Qed.

Lemma math_tan_0 : math_tan 0 = Tan 0.
Proof.
  unfold math_tan. rewrite cos_0, sin_0.
  destruct (Req_dec_T 1 0) as [H | _]; [lra |].
  destruct (Req_dec_T 0 0) as [_ | H]; [reflexivity | now elim H].
Qed.

(** What [math.acos] returns, in degrees, is between 0 and 180. *)
Lemma math_acos_degrees (x b : R) :
  math_acos x = Ok b -> 0 <= degrees b <= 180.
Proof.
  unfold math_acos. destruct (in_unit_interval x); [| discriminate].
  intros H. injection H as <-.
  destruct (acos_bound x) as [H0 H1].
  rewrite <- degrees_0, <- degrees_PI. split; now apply degrees_le.
Qed.

(** The ellipsoidal solver reduces its azimuth modulo 360; the float
    remainder is in the closed interval. *)
Lemma ellipsoidal_azimuth_range (sat_long rx_long rx_lat rx_height sat_alt : R)
    (ang : angles) :
  _look_angles_ellipsoidal sat_long rx_long rx_lat rx_height sat_alt = Ok ang ->
  0 <= azimuth_of ang <= 360.
Proof.
  unfold _look_angles_ellipsoidal.
  destruct (math_sqrt _) as [s |]; cbn [bind]; [| discriminate].
  destruct (truediv _ s) as [N |]; cbn [bind]; [| discriminate].
  destruct (matvec3 _ _) as [[e n] u].
  destruct (math_sqrt _) as [hz |]; cbn [bind]; [| discriminate].
  intros H. injection H as <-. unfold azimuth_of. cbn [fst snd].
  apply py_mod_range. lra.
Qed.

(** The spherical solver puts an angle of [[0, 180]] into one of four
    quadrants and does not reduce it. *)
Lemma spherical_azimuth_range (sat_long rx_long rx_lat sat_alt : R)
    (ang : angles) :
  _look_angles_spherical sat_long rx_long rx_lat sat_alt = Ok ang ->
  0 <= azimuth_of ang <= 360.
Proof.
  unfold _look_angles_spherical.
  destruct (math_acos _) as [gamma |]; cbn [bind]; [| discriminate].
  destruct (truediv _ _) as [q |]; cbn [bind]; [| discriminate].
  destruct (math_sqrt _) as [s |]; cbn [bind]; [| discriminate].
  destruct (truediv _ _) as [rd |]; cbn [bind]; [| discriminate].
  destruct (math_asin _) as [z |]; cbn [bind]; [| discriminate].
  destruct (tan_truediv _ _) as [t |]; cbn [bind]; [| discriminate].
  assert (Hacos : exists x,
             math_acos_tan t = math_acos x \/ raises (math_acos_tan t)).
  { destruct t as [x | p | n]; cbn [math_acos_tan].
    - exists x. now left.
    - exists 0. right. now eexists.
    - exists 0. now left. }
  destruct Hacos as (x & [-> | (e & ->)]); cbn [bind]; [| discriminate].
  destruct (math_acos x) as [b |] eqn:Hb; cbn [bind]; [| discriminate].
  apply math_acos_degrees in Hb.
  intros H. injection H as <-. unfold azimuth_of. cbn [fst snd].
  destruct (Rlt_dec 0 (radians rx_lat));
    destruct (Rlt_dec (radians sat_long) (radians rx_long)); lra.
Qed.

(** C10.  The selector is compared with the one string ['ellipsoidal']:
    that value runs the ellipsoidal solver (at height 0), any other string
    runs the spherical solver, and the outcome of the call, value or
    exception, is the outcome of the solver that ran. *)
Theorem look_angles_dispatch (sat_long rx_long rx_lat sat_alt : R) :
  look_angles sat_long rx_long rx_lat sat_alt "ellipsoidal"
  = _look_angles_ellipsoidal sat_long rx_long rx_lat 0 sat_alt
  /\ (forall implementation : string,
      implementation <> "ellipsoidal"%string ->
      look_angles sat_long rx_long rx_lat sat_alt implementation
      = _look_angles_spherical sat_long rx_long rx_lat sat_alt).
Proof.
  split; [reflexivity |].
  intros implementation Hne. unfold look_angles.
  destruct (String.eqb_spec implementation "ellipsoidal"); [contradiction | reflexivity].
Qed.

Lemma look_angles_dispatch_witness :
  look_angles (-95) (-97) 33 default_sat_alt "elipsoidal"
  = _look_angles_spherical (-95) (-97) 33 default_sat_alt.
Proof.
  apply (proj2 (look_angles_dispatch (-95) (-97) 33 default_sat_alt)).
  discriminate.
Defined.

Lemma cos_PI_minus (x : R) : cos (PI - x) = - cos x.
Proof. rewrite cos_minus, cos_PI, sin_PI. ring. Qed.

Lemma radians_lt (x y : R) : x < y -> radians x < radians y.
Proof.
  intros Hxy. unfold radians. apply Rmult_lt_compat_r; [| exact Hxy].
  pose proof PI_RGT_0. apply Rdiv_lt_0_compat; lra.
Qed.

Lemma radians_0 : radians 0 = 0.
Proof. unfold radians. ring. Qed.

Lemma radians_90 : radians 90 = PI / 2.
Proof. unfold radians. lra. Qed.

(** A receiver in the northern hemisphere and a satellite half a
    revolution to its west: the angle of Equation (6) is 180 degrees, and
    the south-west branch returns [180 + 180].  The quotient of the two
    tangents is -1 there; the float quotient is -1 up to rounding, and
    exactly -1.0 at the latitude 30 and the longitude 10. *)
Lemma spherical_antipodal_west (rx_long rx_lat sat_alt : R) :
  0 < rx_lat < 90 -> 0 < sat_alt ->
  exists v d,
    _look_angles_spherical (rx_long - 180) rx_long rx_lat sat_alt
    = Ok (Finite v, 360, d).
Proof.
  intros Hlat Halt.
  assert (Hl : 0 < radians rx_lat < PI / 2).
  { rewrite <- radians_0 at 1. rewrite <- radians_90.
    split; apply radians_lt; lra. }
  assert (Hc : 0 < cos (radians rx_lat)) by (apply cos_gt_0; lra).
  assert (Hs : 0 < sin (radians rx_lat)).
  { apply sin_gt_0; [lra |]. pose proof PI_RGT_0. lra. }
  pose proof (COS_bound (radians rx_lat)) as Hcb.
  pose proof (SIN_bound (radians rx_lat)) as Hsb.
  unfold _look_angles_spherical.
  replace (radians (rx_long - 180) - radians rx_long) with (- PI)
    by (unfold radians; lra).
  rewrite cos_neg, cos_PI.
  replace (cos (radians rx_lat) * -1) with (- cos (radians rx_lat)) by ring.
  rewrite math_acos_ok by lra. cbn [bind].
  rewrite acos_opp, acos_cos by (pose proof PI_RGT_0; lra).
  rewrite truediv_ok by lra. cbn [bind].
  set (q := 6371000 / (6378137 + sat_alt)).
  assert (Hq : 0 < q) by (apply Rdiv_lt_0_compat; lra).
  set (arg := 1 + q ^ 2 - 2 * q * - cos (radians rx_lat)).
  assert (Harg : 1 <= arg).
  { unfold arg. assert (0 <= q ^ 2) by apply pow2_ge_0.
    assert (0 < q * cos (radians rx_lat)) by now apply Rmult_lt_0_compat.
    lra. }
  rewrite math_sqrt_ok by lra. cbn [bind].
  assert (Hsq : 1 <= sqrt arg).
  { rewrite <- sqrt_1. apply sqrt_le_1_alt. exact Harg. }
  rewrite truediv_ok
    by (apply Rmult_integral_contrapositive_currified; lra).
  cbn [bind].
  rewrite sin_PI_x.
  set (r := 6378137 + sat_alt).
  assert (Hr : 0 < r) by (unfold r; lra).
  assert (Hz : 0 <= r / (r * sqrt arg) * sin (radians rx_lat) <= 1).
  { replace (r / (r * sqrt arg)) with (/ sqrt arg) by (field; lra).
    assert (Hi : 0 < / sqrt arg <= 1).
    { split; [apply Rinv_0_lt_compat; lra |].
      rewrite <- Rinv_1. apply Rinv_le_contravar; lra. }
    split; [apply Rmult_le_pos; lra |].
    replace 1 with (1 * 1) by ring. apply Rmult_le_compat; lra. }
  rewrite math_asin_ok by lra. cbn [bind].
  assert (Ht : tan (PI - radians rx_lat) = - tan (radians rx_lat)).
  { unfold tan. rewrite sin_PI_x, cos_PI_minus. field. lra. }
  assert (Htp : 0 < tan (radians rx_lat)).
  { unfold tan. now apply Rdiv_lt_0_compat. }
  rewrite (math_tan_ok (radians rx_lat)) by lra.
  rewrite (math_tan_ok (PI - radians rx_lat))
    by (rewrite ?cos_PI_minus, ?sin_PI_x; lra).
  cbn [tan_truediv].
  rewrite Ht, truediv_ok by lra. cbn [bind math_acos_tan].
  replace (tan (radians rx_lat) / - tan (radians rx_lat)) with (- (1))
    by (field; lra).
  rewrite math_acos_ok by lra. cbn [bind].
  rewrite acos_opp, acos_1, Rminus_0_r, degrees_PI.
  destruct (Rlt_dec 0 (radians rx_lat)) as [_ | Hn]; [| lra].
  destruct (Rlt_dec (radians (rx_long - 180)) (radians rx_long)) as [_ | Hn];
    [| elim Hn; apply radians_lt; lra].
  replace (180 + 180) with 360 by lra.
  eexists. eexists. reflexivity.
Qed.

(** The receiver on the equator, right below the satellite: the satellite
    is at the zenith, at the distance of its altitude.  The horizontal
    distance is 0 there, and the numpy division gives an infinity. *)
Lemma ellipsoidal_zenith (sat_alt : R) :
  0 < sat_alt ->
  _look_angles_ellipsoidal 0 0 0 0 sat_alt = Ok (Finite 90, 0, sat_alt).
Proof.
  intros Halt. unfold _look_angles_ellipsoidal.
  rewrite radians_0, sin_0, cos_0.
  replace (1 - (2 * (1 / 298.257222100882711)
                - (1 / 298.257222100882711) ^ 2) * 0 ^ 2)
    with 1 by ring.
  rewrite math_sqrt_ok, sqrt_1 by lra. cbn [bind].
  rewrite truediv_ok by lra. cbn [bind].
  cbv [matvec3 dot3 sub3 norm3].
  match goal with
  | |- context [math_atan2 ?e ?n] =>
      replace e with 0 by (field; lra); replace n with 0 by (field; lra)
  end.
  match goal with
  | |- context [np_truediv ?u _] => replace u with sat_alt by (field; lra)
  end.
  match goal with
  | |- context [sqrt ?x] => replace x with (sat_alt * sat_alt) by (field; lra)
  end.
  replace (0 ^ 2 + 0 ^ 2) with 0 by ring.
  rewrite math_sqrt_ok, sqrt_0 by lra. cbn [bind].
  rewrite sqrt_square by lra.
  unfold np_truediv, math_atan2.
  destruct (Req_dec_T 0 0) as [_ | Hn]; [| now elim Hn].
  destruct (Rlt_dec 0 sat_alt) as [_ | Hn]; [| contradiction].
  destruct (Rlt_dec 0 0) as [Hn | _]; [lra |].
  cbn [np_atan np_degrees].
  rewrite degrees_0, py_mod_small by lra.
  replace (degrees (PI / 2)) with 90
    by (unfold degrees; pose proof PI_RGT_0; field; lra).
  reflexivity.
Qed.

(** The ellipsoidal solver has no singularity: it returns for every
    input. *)
Lemma ellipsoidal_returns (sat_long rx_long rx_lat rx_height sat_alt : R) :
  exists ang,
    _look_angles_ellipsoidal sat_long rx_long rx_lat rx_height sat_alt = Ok ang.
Proof.
  unfold _look_angles_ellipsoidal.
  set (e_sq := 2 * (1 / 298.257222100882711) - (1 / 298.257222100882711) ^ 2).
  assert (He : 0 < e_sq < 1) by (unfold e_sq; lra).
  pose proof (SIN_bound (radians rx_lat)) as Hs.
  assert (Hs2 : 0 <= sin (radians rx_lat) ^ 2 <= 1) by nra.
  assert (Harg : 0 < 1 - e_sq * sin (radians rx_lat) ^ 2) by nra.
  rewrite math_sqrt_ok by lra. cbn [bind].
  rewrite truediv_ok by (pose proof (sqrt_lt_R0 _ Harg); lra). cbn [bind].
  destruct (matvec3 _ _) as [[e n] u].
  rewrite math_sqrt_ok by nra. cbn [bind].
  eexists. reflexivity.
Qed.

(** Whenever [look_angles] returns, its azimuth is in the closed interval
    [[0, 360]], under either model. *)
Lemma look_angles_azimuth_closed_range (sat_long rx_long rx_lat sat_alt : R)
    (implementation : string) (ang : angles) :
  look_angles sat_long rx_long rx_lat sat_alt implementation = Ok ang ->
  0 <= azimuth_of ang <= 360.
Proof.
  unfold look_angles.
  destruct (String.eqb implementation "ellipsoidal"); intros H.
  - now apply ellipsoidal_azimuth_range in H.
  - now apply spherical_azimuth_range in H.
Qed.

(** C9 (as the code behaves).  The spherical solver returns an azimuth of
    360 degrees, outside [[0, 360)]: receiver at latitude 30 north and
    longitude 10 east, satellite at 170 west, half a revolution to the
    west.  The angle of Equation (6) is 180 degrees there, the south-west
    branch adds it to 180, and nothing reduces the sum modulo 360 as the
    ellipsoidal solver does. *)
Theorem look_angles_spherical_returns_360 :
  exists ang,
    look_angles (-170) 10 30 default_sat_alt "spherical" = Ok ang
    /\ azimuth_of ang = 360
    /\ ~ (0 <= azimuth_of ang < 360).
Proof.
  destruct (spherical_antipodal_west 10 30 default_sat_alt) as (v & d & H);
    [lra | unfold default_sat_alt; lra |].
  exists (Finite v, 360, d). split.
  - replace (-170) with (10 - 180) by lra. exact H.
  - unfold azimuth_of. cbn [fst snd]. split; [reflexivity | lra].
Qed.

End PointingFacts.

(** ** The orchestrator *)
Module MainFacts.
Import Calc Pointing Main PyFacts PathLossFacts PointingFacts.



(** With the altitude of the radar object and the EIRP given, nothing
    before [path_loss] can raise: for a frequency other than 0 the
    orchestrator ends in a [ValueError]. *)
Lemma analyze_bistatic_radar_value_error (abs_to_db : R -> result R)
    (args : Args) (alt e0 : R) :
  radar args = true ->
  radar_bistatic args = true ->
  radar_alt args = Some alt ->
  eirp args = Some e0 ->
  freq args <> 0 ->
  exists msg, analyze abs_to_db args = Raise (ValueError msg).
Proof.
  intros Hradar Hbi Halt He Hf.
  unfold analyze, analyze_pointing, analyze_eirp, look_angles.
  rewrite Hradar, Hbi, Halt, He. cbn [negb operand bind String.eqb Ascii.eqb
    Bool.eqb].
  destruct (ellipsoidal_returns (sat_long args) (rx_long args) (rx_lat args)
              0 alt) as (ang & ->).
  cbn [bind].
  destruct (path_loss_no_d_rx (slant_range_of ang) (freq args)
              (radar_cross_section args)) as (err & -> & Hval).
  cbn [bind]. specialize (Hval Hf).
  destruct err; try discriminate. now exists msg.
Qed.


End MainFacts.

(** * Further properties of the code *)

(** ** Logarithms and decibels *)
Module LogFacts.
Import Util PyFacts UtilFacts.

Lemma log10_mult (a b : R) :
  0 < a -> 0 < b -> log10 (a * b) = log10 a + log10 b.
Proof.
  intros Ha Hb. unfold log10. rewrite ln_mult by assumption.
  pose proof ln_10_pos. field. lra.
Qed.

Lemma log10_inv (a : R) : 0 < a -> log10 (/ a) = - log10 a.
Proof.
  intros Ha. unfold log10. rewrite ln_Rinv by assumption.
  pose proof ln_10_pos. field. lra.
Qed.

Lemma log10_div (a b : R) :
  0 < a -> 0 < b -> log10 (a / b) = log10 a - log10 b.
Proof.
  intros Ha Hb. unfold Rdiv.
  rewrite log10_mult by (try apply Rinv_0_lt_compat; assumption).
  rewrite log10_inv by assumption. ring.
Qed.

Lemma log10_pow (a : R) (n : nat) : 0 < a -> log10 (a ^ n) = INR n * log10 a.
Proof.
  intros Ha. unfold log10. rewrite ln_pow by assumption.
  pose proof ln_10_pos. field. lra.
Qed.

Lemma log10_1 : log10 1 = 0.
Proof. unfold log10. rewrite ln_1. unfold Rdiv. ring. Qed.

Lemma log10_increasing (a b : R) : 0 < a -> a < b -> log10 a < log10 b.
Proof.
  intros Ha Hab. unfold log10, Rdiv.
  apply Rmult_lt_compat_r.
  - apply Rinv_0_lt_compat, ln_10_pos.
  - now apply ln_increasing.
Qed.

Lemma log10_le (a b : R) : 0 < a -> a <= b -> log10 a <= log10 b.
Proof.
  intros Ha [Hab | ->]; [left; now apply log10_increasing | right; reflexivity].
Qed.

Lemma ln_2_pos : 0 < ln 2.
Proof. rewrite <- ln_1. apply ln_increasing; lra. Qed.

Lemma log2_increasing (a b : R) : 0 < a -> a < b -> log2 a < log2 b.
Proof.
  intros Ha Hab. unfold log2, Rdiv.
  apply Rmult_lt_compat_r.
  - apply Rinv_0_lt_compat, ln_2_pos.
  - now apply ln_increasing.
Qed.

Lemma log2_2 : log2 2 = 1.
Proof. unfold log2. pose proof ln_2_pos. field. lra. Qed.

Lemma db_to_abs_increasing (x y : R) : x < y -> db_to_abs x < db_to_abs y.
Proof.
  intros Hxy. unfold db_to_abs, Rpower. apply exp_increasing.
  pose proof ln_10_pos. apply Rmult_lt_compat_r; lra.
Qed.

Lemma db_to_abs_opp (x : R) : db_to_abs (- x) = / db_to_abs x.
Proof.
  unfold db_to_abs, Rpower. rewrite <- exp_Ropp. f_equal. field.
Qed.

Lemma db_to_abs_gt_1 (x : R) : 0 < x -> 1 < db_to_abs x.
Proof.
  intros Hx. rewrite <- db_to_abs_0. now apply db_to_abs_increasing.
Qed.

Lemma db_to_abs_log10 (x : R) : 0 < x -> db_to_abs (10 * log10 x) = x.
Proof.
  intros Hx. unfold db_to_abs, log10, Rpower.
  pose proof ln_10_pos.
  replace (10 * (ln x / ln 10) / 10 * ln 10) with (ln x) by (field; lra).
  now apply exp_ln.
Qed.

End LogFacts.

(** ** Path loss and antenna gain, term by term *)
Module LinkFacts.
Import Util Calc Formulas PyFacts UtilFacts LogFacts PathLossFacts.

(** X1.  Without radar, and for a positive distance and frequency, the loss
    is the sum of a distance term, a frequency term and a constant:
    [20 log10 d + 20 log10 f + 20 log10 (4 pi / c)]. *)
Theorem path_loss_free_space_terms (d freq : R) (rcs : option R)
    (bistatic : bool) (d_rx : option R) :
  0 < d -> 0 < freq ->
  path_loss d freq false rcs bistatic d_rx
  = Ok (20 * log10 d + 20 * log10 freq
        + 20 * log10 (4 * PI / SPEED_OF_LIGHT)).
Proof.
  intros Hd Hf. pose proof PI_RGT_0 as Hpi. pose proof SPEED_OF_LIGHT_pos as Hc.
  rewrite path_loss_prologue by lra. cbv zeta.
  rewrite math_log10_ok
    by (apply four_pi_ratio_pos; [exact Hd | now apply wavelength_pos]).
  cbn [bind]. f_equal.
  replace (4 * PI * d / wavelength_of freq)
    with (d * (freq * (4 * PI / SPEED_OF_LIGHT)))
    by (unfold wavelength_of; field; lra).
  assert (Hk : 0 < 4 * PI / SPEED_OF_LIGHT) by (apply Rdiv_lt_0_compat; lra).
  assert (Hfk : 0 < freq * (4 * PI / SPEED_OF_LIGHT))
    by (apply Rmult_lt_0_compat; assumption).
  rewrite log10_mult by assumption.
  rewrite log10_mult by assumption. ring.
Qed.

Lemma path_loss_free_space_terms_witness :
  path_loss 35786000 12000000000 false None false None
  = Ok (20 * log10 35786000 + 20 * log10 12000000000
        + 20 * log10 (4 * PI / SPEED_OF_LIGHT)).
Proof.
  apply path_loss_free_space_terms; lra.
Defined.

(** X2.  The monostatic radar loss is the radar equation,
    [10 log10 ((4 pi)^3 d^4 / (rcs lambda^2))]: it grows with the fourth
    power of the distance. *)
Theorem path_loss_radar_equation (d freq rcs : R) (d_rx : option R) :
  0 < d -> 0 < freq -> 0 < rcs ->
  path_loss d freq true (Some rcs) false d_rx
  = Ok (10 * log10 ((4 * PI) ^ 3 * d ^ 4 / (rcs * wavelength_of freq ^ 2))).
Proof.
  intros Hd Hf Hr. pose proof PI_RGT_0 as Hpi.
  assert (Hl : 0 < wavelength_of freq) by now apply wavelength_pos.
  assert (Hl2 : 0 < wavelength_of freq ^ 2) by now apply sq_wavelength_pos.
  assert (HA : 0 < 4 * PI * d / wavelength_of freq)
    by now apply four_pi_ratio_pos.
  assert (HB : 0 < 4 * PI * rcs / wavelength_of freq ^ 2)
    by now apply four_pi_ratio_pos.
  rewrite path_loss_prologue by lra. cbv zeta.
  rewrite math_log10_ok by exact HA. cbn [bind].
  rewrite math_log10_ok by exact HB. cbn [bind]. f_equal.
  replace ((4 * PI) ^ 3 * d ^ 4 / (rcs * wavelength_of freq ^ 2))
    with ((4 * PI * d / wavelength_of freq) ^ 4
          / (4 * PI * rcs / wavelength_of freq ^ 2))
    by (field; lra).
  rewrite (log10_div ((4 * PI * d / wavelength_of freq) ^ 4)
             (4 * PI * rcs / wavelength_of freq ^ 2));
    [| apply pow_lt; exact HA | exact HB].
  rewrite log10_pow by exact HA. simpl INR. ring.
Qed.

Lemma path_loss_radar_equation_witness :
  path_loss 1000000 1296000000 true (Some 10) false None
  = Ok (10 * log10 ((4 * PI) ^ 3 * 1000000 ^ 4
                    / (10 * wavelength_of 1296000000 ^ 2))).
Proof.
  apply path_loss_radar_equation; lra.
Defined.

(** X3.  A bistatic radar whose receiver is as far from the object as the
    transmitter has the loss of the monostatic radar, and fails where it
    fails. *)
Theorem path_loss_bistatic_same_distance (d freq : R) (rcs d_rx : option R) :
  path_loss d freq true rcs true (Some d)
  = path_loss d freq true rcs false d_rx.
Proof.
  unfold path_loss.
  destruct (truediv SPEED_OF_LIGHT freq) as [wavelength |]; cbn [bind];
    [| reflexivity].
  destruct (truediv (4 * PI * d) wavelength) as [x |]; cbn [bind];
    [| reflexivity].
  destruct (math_log10 x) as [l |]; cbn [bind]; [| reflexivity].
  destruct rcs as [rcs |]; [| reflexivity].
  destruct (truediv (4 * PI * rcs) (wavelength ^ 2)) as [y |]; cbn [bind];
    [| reflexivity].
  destruct (math_log10 y) as [g |]; cbn [bind]; [| reflexivity].
  f_equal. ring.
Qed.

(** X4.  For a positive diameter and frequency the dish gain is
    [20 log10 diameter + 20 log10 f + 10 log10 (7 pi / (4 c^2))]: 20 dB per
    decade of diameter and of frequency. *)
Theorem dish_gain_terms (diameter freq : R) :
  0 < diameter -> 0 < freq ->
  dish_gain diameter freq
  = Ok (20 * log10 diameter + 20 * log10 freq
        + 10 * log10 (7 * PI / (4 * SPEED_OF_LIGHT ^ 2))).
Proof.
  intros Hd Hf. pose proof PI_RGT_0 as Hpi. pose proof SPEED_OF_LIGHT_pos as Hc.
  assert (Hc2 : 0 < SPEED_OF_LIGHT ^ 2) by now apply pow_lt.
  assert (Hk : 0 < 7 * PI / (4 * SPEED_OF_LIGHT ^ 2))
    by (apply Rdiv_lt_0_compat; lra).
  assert (Hd2 : 0 < diameter ^ 2) by now apply pow_lt.
  assert (Hf2 : 0 < freq ^ 2) by now apply pow_lt.
  unfold dish_gain. rewrite truediv_ok by lra. cbn [bind].
  fold (wavelength_of freq).
  rewrite truediv_ok
    by (apply pow_nonzero; apply wavelength_nonzero; lra).
  cbn [bind].
  replace (7 * (PI * (diameter / 2) ^ 2) / wavelength_of freq ^ 2)
    with (diameter ^ 2 * (freq ^ 2 * (7 * PI / (4 * SPEED_OF_LIGHT ^ 2))))
    by (unfold wavelength_of; field; lra).
  assert (Hfk : 0 < freq ^ 2 * (7 * PI / (4 * SPEED_OF_LIGHT ^ 2)))
    by (apply Rmult_lt_0_compat; assumption).
  rewrite math_log10_ok by (apply Rmult_lt_0_compat; assumption).
  cbn [bind]. f_equal.
  rewrite log10_mult by assumption.
  rewrite log10_mult by assumption.
  rewrite !log10_pow by assumption. simpl INR. ring.
Qed.

Lemma dish_gain_terms_witness :
  dish_gain 0.9 12000000000
  = Ok (20 * log10 0.9 + 20 * log10 12000000000
        + 10 * log10 (7 * PI / (4 * SPEED_OF_LIGHT ^ 2))).
Proof.
  apply dish_gain_terms; lra.
Defined.

(** X5.  What [dish_gain] does outside that domain: a frequency of 0 ends
    in the division, a diameter of 0 in the logarithm, and the sign of the
    diameter is not looked at. *)
Theorem dish_gain_edges (diameter freq : R) :
  dish_gain diameter 0 = Raise ZeroDivisionError
  /\ (freq <> 0 -> dish_gain 0 freq = Raise math_domain_error)
  /\ dish_gain (- diameter) freq = dish_gain diameter freq.
Proof.
  repeat split.
  - unfold dish_gain. now rewrite truediv_zero.
  - intros Hf. unfold dish_gain. rewrite truediv_ok by exact Hf. cbn [bind].
    fold (wavelength_of freq).
    rewrite truediv_ok
      by (apply pow_nonzero; now apply wavelength_nonzero).
    cbn [bind]. rewrite math_log10_domain; [reflexivity |].
    replace (7 * (PI * (0 / 2) ^ 2) / wavelength_of freq ^ 2) with 0
      by (field; apply wavelength_nonzero; exact Hf).
    lra.
  - unfold dish_gain.
    replace ((- diameter / 2) ^ 2) with ((diameter / 2) ^ 2) by field.
    reflexivity.
Qed.

Lemma dish_gain_edges_witness :
  dish_gain 0 12000000000 = Raise math_domain_error.
Proof.
  apply (proj1 (proj2 (dish_gain_edges 0 12000000000))). lra.
Defined.

End LinkFacts.

(** ** The receiver noise chain *)
Module ReceiverNoiseFacts.
Import Util Calc Formulas PyFacts UtilFacts LogFacts CascadeFacts.

Lemma db_to_abs_plus (x y : R) : db_to_abs (x + y) = db_to_abs x * db_to_abs y.
Proof.
  unfold db_to_abs, Rpower. rewrite <- exp_plus. f_equal. field.
Qed.

(** The stages after the first add nothing negative when none of them has
    a negative noise figure. *)
Lemma friis_ge_first (nf0 : R) (rest gains : list R) :
  Forall (fun nf => 0 <= nf) rest ->
  db_to_abs nf0 <= friis (nf0 :: rest) gains.
Proof.
  intros Hall. unfold friis.
  replace (List.length (nf0 :: rest) - 1)%nat with (List.length rest)
    by (simpl; lia).
  rewrite <- seq_shift, map_map.
  assert (Hs : forall l : list nat,
             0 <= Rsum (map (fun k => (noise_factor (nf0 :: rest) (S k) - 1)
                                      / gain_product gains (S k)) l)).
  { unfold Rsum. induction l as [| k l IH]; simpl fold_right; [lra |].
    assert (Hk : 1 <= noise_factor (nf0 :: rest) (S k)).
    { unfold noise_factor. simpl nth.
      destruct (Nat.lt_ge_cases k (List.length rest)) as [Hlt | Hge].
      - apply db_to_abs_ge_1.
        rewrite Forall_forall in Hall. apply Hall. now apply nth_In.
      - rewrite nth_overflow by exact Hge. rewrite db_to_abs_0. lra. }
    pose proof (gain_product_pos gains (S k)) as Hg.
    assert (0 <= (noise_factor (nf0 :: rest) (S k) - 1)
                 / gain_product gains (S k)).
    { apply Rmult_le_pos; [lra |]. left. now apply Rinv_0_lt_compat. }
    simpl map in IH. lra. }
  specialize (Hs (seq 0 (List.length rest))).
  unfold noise_factor at 1. simpl nth. lra.
Qed.

Lemma cascade_at_least_first_stage (nf0 : R) (rest gains : list R) :
  rest <> [] ->
  List.length gains = List.length rest ->
  Forall (fun nf => 0 <= nf) rest ->
  exists v, total_noise_figure (nf0 :: rest) gains = Ok v /\ nf0 <= v.
Proof.
  intros Hne Hlen Hall.
  pose proof (friis_ge_first nf0 rest gains Hall) as HF.
  pose proof (db_to_abs_pos nf0) as Hpos.
  rewrite total_noise_figure_cascade.
  - rewrite math_log10_ok by lra. cbn [bind]. eexists. split; [reflexivity |].
    rewrite <- (log10_db_to_abs nf0) at 1.
    apply Rmult_le_compat_l; [lra |]. now apply log10_le.
  - destruct rest; [congruence | simpl; lia].
  - simpl. lia.
Qed.

(** X6.  A cascade is never quieter than its first stage: when no later
    stage has a negative noise figure, the call returns, and what it
    returns is at least the noise figure of the first stage. *)
Theorem total_noise_figure_at_least_first_stage (nf0 : R)
    (rest gains : list R) :
  rest <> [] ->
  List.length gains = List.length rest ->
  Forall (fun nf => 0 <= nf) rest ->
  exists v, total_noise_figure (nf0 :: rest) gains = Ok v /\ nf0 <= v.
Proof. exact (cascade_at_least_first_stage nf0 rest gains). Qed.

Lemma total_noise_figure_at_least_first_stage_witness :
  exists v, total_noise_figure [1; 0.8; 8] [55; -0.8] = Ok v /\ 1 <= v.
Proof.
  apply total_noise_figure_at_least_first_stage.
  - discriminate.
  - reflexivity.
  - apply Forall_cons; [lra |]. apply Forall_cons; [lra | apply Forall_nil].
Defined.

Lemma coax_loss_nf_T0 (length_ft : R) :
  coax_loss_nf length_ft T0
  = Ok (length_ft * (8 / 100), length_ft * (8 / 100)).
Proof.
  unfold coax_loss_nf.
  replace (1 + T0 / T0 * (db_to_abs (length_ft * (8 / 100)) - 1))
    with (db_to_abs (length_ft * (8 / 100))) by (unfold T0; field).
  rewrite math_log10_ok by apply db_to_abs_pos. cbn [bind].
  now rewrite log10_db_to_abs.
Qed.

(** X7.  The chain of the orchestrator, LNB, coaxial line at [T0],
    receiver: the line and the receiver count as one stage whose noise
    figure is the receiver's plus the loss of the line. *)
Theorem coax_then_receiver_is_one_stage (lnb_nf lnb_gain length_ft rx_nf
    loss_db coax_nf : R) :
  coax_loss_nf length_ft T0 = Ok (loss_db, coax_nf) ->
  total_noise_figure [lnb_nf; coax_nf; rx_nf] [lnb_gain; - loss_db]
  = total_noise_figure [lnb_nf; loss_db + rx_nf] [lnb_gain].
Proof.
  rewrite coax_loss_nf_T0. intros H. injection H as <- <-.
  set (loss_db := length_ft * (8 / 100)).
  rewrite !total_noise_figure_cascade by (simpl; lia).
  assert (HF : friis [lnb_nf; loss_db; rx_nf] [lnb_gain; - loss_db]
               = friis [lnb_nf; loss_db + rx_nf] [lnb_gain]).
  { unfold friis, noise_factor, gain_product, stage_gain, Rsum.
    simpl. rewrite db_to_abs_plus, db_to_abs_opp.
    pose proof (db_to_abs_pos loss_db). pose proof (db_to_abs_pos lnb_gain).
    field. lra. }
  now rewrite HF.
Qed.

Lemma coax_then_receiver_is_one_stage_witness :
  total_noise_figure [1; 10 * (8 / 100); 8] [55; - (10 * (8 / 100))]
  = total_noise_figure [1; 10 * (8 / 100) + 8] [55].
Proof.
  apply (coax_then_receiver_is_one_stage 1 55 10 8). apply coax_loss_nf_T0.
Defined.

(** X8.  For a length and a line temperature that are not negative the
    line has a noise figure, which is not negative; it is at most the loss
    for a line no warmer than [T0] and at least the loss for a line no
    cooler. *)
Theorem coax_loss_nf_physical (length_ft Tl : R) :
  0 <= length_ft -> 0 <= Tl ->
  exists nf,
    coax_loss_nf length_ft Tl = Ok (length_ft * (8 / 100), nf)
    /\ 0 <= nf
    /\ (Tl <= T0 -> nf <= length_ft * (8 / 100))
    /\ (T0 <= Tl -> length_ft * (8 / 100) <= nf).
Proof.
  intros Hlen HTl. unfold coax_loss_nf.
  set (loss_db := length_ft * (8 / 100)).
  assert (Hdb : 0 <= loss_db) by (unfold loss_db; lra).
  pose proof (db_to_abs_ge_1 loss_db Hdb) as HL.
  set (L := db_to_abs loss_db) in *.
  assert (Ht : 0 <= Tl / T0) by (unfold T0; lra).
  assert (Hm : 0 <= Tl / T0 * (L - 1)) by (apply Rmult_le_pos; lra).
  rewrite math_log10_ok by lra. cbn [bind].
  eexists. split; [reflexivity |].
  assert (HlogL : 10 * log10 L = loss_db) by apply log10_db_to_abs.
  repeat split.
  - apply Rmult_le_pos; [lra |]. rewrite <- log10_1. apply log10_le; lra.
  - intros Hc. rewrite <- HlogL.
    apply Rmult_le_compat_l; [lra |]. apply log10_le; [lra |].
    assert (Tl / T0 <= 1) by (unfold T0 in *; lra). nra.
  - intros Hw. rewrite <- HlogL.
    apply Rmult_le_compat_l; [lra |]. apply log10_le; [lra |].
    assert (1 <= Tl / T0) by (unfold T0 in *; lra). nra.
Qed.

Lemma coax_loss_nf_physical_witness :
  exists nf,
    coax_loss_nf 10 350 = Ok (10 * (8 / 100), nf)
    /\ 0 <= nf
    /\ (350 <= T0 -> nf <= 10 * (8 / 100))
    /\ (T0 <= 350 -> 10 * (8 / 100) <= nf).
Proof.
  apply coax_loss_nf_physical; lra.
Defined.

(** X9.  A line of length 0 and a line at 0 K add no noise. *)
Theorem coax_loss_nf_noiseless (length_ft Tl : R) :
  coax_loss_nf 0 Tl = Ok (0, 0)
  /\ coax_loss_nf length_ft 0 = Ok (length_ft * (8 / 100), 0).
Proof.
  split; unfold coax_loss_nf.
  - replace (0 * (8 / 100)) with 0 by ring. rewrite db_to_abs_0.
    replace (1 + Tl / T0 * (1 - 1)) with 1 by ring.
    rewrite math_log10_ok by lra. cbn [bind]. rewrite log10_1.
    do 2 f_equal. ring.
  - replace (1 + 0 / T0 * (db_to_abs (length_ft * (8 / 100)) - 1)) with 1
      by (unfold T0; field).
    rewrite math_log10_ok by lra. cbn [bind]. rewrite log10_1.
    do 2 f_equal. ring.
Qed.

(** X10.  A noise temperature has a noise figure exactly when it is above
    [-T0]; the noise figure has the sign of the temperature. *)
Theorem noise_temp_to_noise_fig_domain (Te : R) :
  (Te <= - T0 -> noise_temp_to_noise_fig Te = Raise math_domain_error)
  /\ (- T0 < Te ->
      exists nf,
        noise_temp_to_noise_fig Te = Ok nf
        /\ (0 <= Te -> 0 <= nf)
        /\ (Te <= 0 -> nf <= 0)).
Proof.
  split.
  - intros HTe. unfold noise_temp_to_noise_fig.
    rewrite math_log10_domain; [reflexivity |]. unfold T0 in *. lra.
  - intros HTe. unfold noise_temp_to_noise_fig.
    assert (Hpos : 0 < 1 + Te / T0) by (unfold T0 in *; lra).
    rewrite math_log10_ok by exact Hpos. cbn [bind].
    eexists. split; [reflexivity |]. split; intros Hs.
    + apply Rmult_le_pos; [lra |]. rewrite <- log10_1.
      apply log10_le; [lra |]. unfold T0. lra.
    + assert (Hl : log10 (1 + Te / T0) <= log10 1)
        by (apply log10_le; [exact Hpos | unfold T0; lra]).
      rewrite log10_1 in Hl. lra.
Qed.

Lemma noise_temp_to_noise_fig_domain_witness :
  noise_temp_to_noise_fig (-290) = Raise math_domain_error
  /\ exists nf,
       noise_temp_to_noise_fig 75 = Ok nf
       /\ (0 <= 75 -> 0 <= nf)
       /\ (75 <= 0 -> nf <= 0).
Proof.
  split.
  - apply (proj1 (noise_temp_to_noise_fig_domain (-290))). unfold T0. lra.
  - apply (proj2 (noise_temp_to_noise_fig_domain 75)). unfold T0. lra.
Defined.

(** X11.  The noise temperature grows with the noise figure, is above
    [-T0] for every noise figure, and is 0 K at 0 dB. *)
Theorem noise_fig_to_noise_temp_order :
  (forall a b : R,
      a < b -> noise_fig_to_noise_temp a < noise_fig_to_noise_temp b)
  /\ (forall nf : R, - T0 < noise_fig_to_noise_temp nf)
  /\ noise_fig_to_noise_temp 0 = 0.
Proof.
  unfold noise_fig_to_noise_temp. repeat split.
  - intros a b Hab. pose proof (db_to_abs_increasing a b Hab).
    unfold T0. lra.
  - intros nf. pose proof (db_to_abs_pos nf). unfold T0. lra.
  - rewrite db_to_abs_0. ring.
Qed.

Lemma noise_fig_to_noise_temp_order_witness :
  noise_fig_to_noise_temp 1 < noise_fig_to_noise_temp 8.
Proof.
  apply (proj1 noise_fig_to_noise_temp_order). lra.
Defined.

End ReceiverNoiseFacts.

(** ** Carrier-to-noise ratio and capacity *)
Module CnrFacts.
Import Util Calc PyFacts UtilFacts LogFacts.

Lemma math_log2_ok (x : R) : 0 < x -> math_log2 x = Ok (log2 x).
Proof.
  intros Hx. unfold math_log2. destruct (Rlt_dec 0 x); [reflexivity | contradiction].
Qed.

(** X12.  [cnr] needs a positive bandwidth: for one that is not,
    [math.log10] raises.  A bandwidth [k] times as wide lowers C/N by
    [10 log10 k] dB. *)
Theorem cnr_bandwidth (eirp_db path_loss_db rx_ant_gain_db T_sys_db bw k : R) :
  (bw <= 0 ->
   cnr eirp_db path_loss_db rx_ant_gain_db T_sys_db bw
   = Raise math_domain_error)
  /\ (0 < bw -> 0 < k ->
      exists c,
        cnr eirp_db path_loss_db rx_ant_gain_db T_sys_db bw = Ok c
        /\ cnr eirp_db path_loss_db rx_ant_gain_db T_sys_db (k * bw)
           = Ok (c - 10 * log10 k)).
Proof.
  split.
  - intros Hbw. unfold cnr. now rewrite math_log10_domain.
  - intros Hbw Hk. unfold cnr.
    rewrite !math_log10_ok by (try apply Rmult_lt_0_compat; assumption).
    cbn [bind]. eexists. split; [reflexivity |].
    f_equal. rewrite log10_mult by assumption. ring.
Qed.

Lemma cnr_bandwidth_witness :
  cnr 50 205 35 20 0 = Raise math_domain_error
  /\ exists c,
       cnr 50 205 35 20 1000000 = Ok c
       /\ cnr 50 205 35 20 (2 * 1000000) = Ok (c - 10 * log10 2).
Proof.
  split.
  - apply (proj1 (cnr_bandwidth 50 205 35 20 0 1)). lra.
  - apply (proj2 (cnr_bandwidth 50 205 35 20 1000000 2)); lra.
Defined.

(** X13.  [capacity] returns for every signal-to-noise ratio and bandwidth;
    at 0 dB the capacity is the bandwidth, and for a positive bandwidth it
    is positive. *)
Theorem capacity_returns (snr_db bw : R) :
  capacity 0 bw = Ok bw
  /\ exists c, capacity snr_db bw = Ok c /\ (0 < bw -> 0 < c).
Proof.
  split.
  - unfold capacity. rewrite db_to_abs_0.
    replace (1 + 1) with 2 by ring.
    rewrite math_log2_ok by lra. cbn [bind]. rewrite log2_2.
    f_equal. ring.
  - unfold capacity. pose proof (db_to_abs_pos snr_db) as Hs.
    rewrite math_log2_ok by lra. cbn [bind].
    eexists. split; [reflexivity |]. intros Hbw.
    apply Rmult_lt_0_compat; [exact Hbw |].
    unfold log2. apply Rdiv_lt_0_compat; [| apply ln_2_pos].
    rewrite <- ln_1. apply ln_increasing; lra.
Qed.

Lemma capacity_returns_witness :
  capacity 0 1000000 = Ok 1000000
  /\ exists c, capacity 10 1000000 = Ok c /\ (0 < 1000000 -> 0 < c).
Proof.
  exact (capacity_returns 10 1000000).
Defined.

(** X14.  For a positive bandwidth the capacity grows with the
    signal-to-noise ratio. *)
Theorem capacity_increasing (snr1 snr2 bw : R) :
  0 < bw -> snr1 < snr2 ->
  exists c1 c2,
    capacity snr1 bw = Ok c1 /\ capacity snr2 bw = Ok c2 /\ c1 < c2.
Proof.
  intros Hbw Hsnr. unfold capacity.
  pose proof (db_to_abs_pos snr1) as H1.
  pose proof (db_to_abs_increasing snr1 snr2 Hsnr) as H12.
  rewrite !math_log2_ok by lra. cbn [bind].
  eexists. eexists. split; [reflexivity |]. split; [reflexivity |].
  apply Rmult_lt_compat_l; [exact Hbw |].
  apply log2_increasing; lra.
Qed.

Lemma capacity_increasing_witness :
  exists c1 c2,
    capacity 3 1000000 = Ok c1 /\ capacity 10 1000000 = Ok c2 /\ c1 < c2.
Proof.
  apply capacity_increasing; lra.
Defined.

End CnrFacts.

(** ** The spherical solver *)
Module SphericalFacts.
Import Pointing PyFacts PointingFacts.

Lemma asin_nonneg (x : R) : 0 <= x -> 0 <= asin x.
Proof.
  intros Hx. unfold asin. pose proof PI_RGT_0.
  destruct (Rle_dec x (-1)); [lra |].
  destruct (Rle_dec 1 x); [lra |].
  assert (Hs : 0 < sqrt (1 - x²)).
  { apply sqrt_lt_R0. unfold Rsqr. nra. }
  assert (Hq : 0 <= x / sqrt (1 - x²)).
  { apply Rmult_le_pos; [exact Hx |]. left. now apply Rinv_0_lt_compat. }
  destruct Hq as [Hq | <-].
  - left. rewrite <- atan_0. now apply atan_increasing.
  - rewrite atan_0. lra.
Qed.

(** For a satellite above the surface the steps up to the zenith distance
    go through: the square root has a positive argument, the slant range is
    not 0, and the argument of [math.asin] is in [[0, 1]].  What can still
    raise is the angle of Equation (6). *)
Lemma spherical_front (sat_long rx_long rx_lat sat_alt : R) :
  0 < sat_alt ->
  let cos_gamma := cos (radians rx_lat)
                   * cos (radians sat_long - radians rx_long) in
  let gamma := acos cos_gamma in
  let r := 6378137 + sat_alt in
  let s := sqrt (1 + (6371000 / r) ^ 2 - 2 * (6371000 / r) * cos_gamma) in
  let z := asin (r / (r * s) * sin gamma) in
  0 < s
  /\ 0 <= r / (r * s) * sin gamma <= 1
  /\ _look_angles_spherical sat_long rx_long rx_lat sat_alt
     = (t <- tan_truediv (math_tan (radians rx_lat)) (math_tan gamma) ;;
        b <- math_acos_tan t ;;
        let beta := degrees b in
        let alpha :=
          if Rlt_dec 0 (radians rx_lat) then
            (if Rlt_dec (radians sat_long) (radians rx_long)
             then 180 + beta else 180 - beta)
          else
            (if Rlt_dec (radians sat_long) (radians rx_long)
             then 360 - beta else beta) in
        Ok (Finite (90 - degrees z), alpha, r * s)).
Proof.
  intros Halt cos_gamma gamma r s z.
  assert (Hc : -1 <= cos_gamma <= 1).
  { unfold cos_gamma.
    pose proof (COS_bound (radians rx_lat)).
    pose proof (COS_bound (radians sat_long - radians rx_long)).
    split; nra. }
  assert (Hr : 0 < r) by (unfold r; lra).
  set (q := 6371000 / r) in *.
  assert (Hq : 0 < q < 1).
  { unfold q. split.
    - apply Rdiv_lt_0_compat; lra.
    - apply Rmult_lt_reg_r with r; [exact Hr |].
      unfold Rdiv. rewrite Rmult_assoc, Rinv_l by lra. unfold r. lra. }
  assert (Harg : 0 < 1 + q ^ 2 - 2 * q * cos_gamma) by nra.
  assert (Hs : 0 < s) by (unfold s; now apply sqrt_lt_R0).
  assert (Hs2 : s * s = 1 + q ^ 2 - 2 * q * cos_gamma)
    by (unfold s; apply sqrt_sqrt; lra).
  assert (Hg : 0 <= gamma <= PI) by apply acos_bound.
  assert (Hsin : 0 <= sin gamma) by (apply sin_ge_0; lra).
  assert (Hsin2 : sin gamma * sin gamma = 1 - cos_gamma * cos_gamma).
  { pose proof (sin2_cos2 gamma) as H. unfold Rsqr in H.
    unfold gamma in *. rewrite cos_acos in H by exact Hc. lra. }
  assert (Hsq : sin gamma * sin gamma <= s * s).
  { rewrite Hsin2, Hs2. pose proof (Rle_0_sqr (q - cos_gamma)) as Hd.
    unfold Rsqr in Hd. simpl pow. lra. }
  assert (Hle : sin gamma <= s).
  { destruct (Rle_dec (sin gamma) s) as [Hle | Hgt]; [exact Hle |].
    exfalso. apply Rnot_le_lt in Hgt.
    assert (s * s < sin gamma * sin gamma) by nra. lra. }
  assert (Hz : 0 <= r / (r * s) * sin gamma <= 1).
  { replace (r / (r * s)) with (/ s) by (field; lra).
    assert (Hi : 0 < / s) by now apply Rinv_0_lt_compat.
    split; [apply Rmult_le_pos; lra |].
    apply Rmult_le_reg_l with s; [exact Hs |].
    rewrite <- Rmult_assoc, Rinv_r by lra. lra. }
  split; [exact Hs |]. split; [exact Hz |].
  unfold _look_angles_spherical.
  fold cos_gamma. rewrite math_acos_ok by exact Hc. cbn [bind].
  fold gamma. fold r. rewrite truediv_ok by lra. cbn [bind]. fold q.
  rewrite math_sqrt_ok by lra. cbn [bind]. fold s.
  rewrite truediv_ok by (apply Rmult_integral_contrapositive_currified; lra).
  cbn [bind].
  rewrite math_asin_ok by lra. cbn [bind]. reflexivity.
Qed.

Lemma degrees_PI2 : degrees (PI / 2) = 90.
Proof. unfold degrees. pose proof PI_RGT_0. field. lra. Qed.

(** X15.  The singularity of the spherical solver: for a receiver on the
    equator right below the satellite the two radius vectors coincide, the
    tangent of the angle between them is 0, and the division of Equation
    (6) raises. *)
Theorem spherical_subsatellite_point_raises (long sat_alt : R) :
  0 < sat_alt ->
  _look_angles_spherical long long 0 sat_alt = Raise ZeroDivisionError.
Proof.
  intros Halt.
  destruct (spherical_front long long 0 sat_alt Halt) as (_ & _ & ->).
  replace (radians long - radians long) with 0 by ring.
  rewrite radians_0, cos_0, Rmult_1_r, acos_1, math_tan_0.
  cbn [tan_truediv]. now rewrite truediv_zero.
Qed.

Lemma spherical_subsatellite_point_raises_witness :
  _look_angles_spherical (-95) (-95) 0 default_sat_alt
  = Raise ZeroDivisionError.
Proof.
  apply spherical_subsatellite_point_raises. unfold default_sat_alt. lra.
Defined.

(** X16.  What the spherical solver returns for a satellite above the
    surface: an elevation between 0 and 90 degrees, never a negative one,
    and a slant range between [r - R] and [r + R], the distances to the
    satellite from the nearest and from the farthest point of the sphere. *)
Theorem spherical_result_ranges (sat_long rx_long rx_lat sat_alt : R)
    (ang : angles) :
  0 < sat_alt ->
  _look_angles_spherical sat_long rx_long rx_lat sat_alt = Ok ang ->
  (exists v, fst (fst ang) = Finite v /\ 0 <= v <= 90)
  /\ sat_alt + 7137 <= slant_range_of ang <= sat_alt + 12749137.
Proof.
  intros Halt.
  destruct (spherical_front sat_long rx_long rx_lat sat_alt Halt)
    as (Hs & Hz & ->).
  destruct (tan_truediv _ _) as [t |]; cbn [bind]; [| discriminate].
  destruct (math_acos_tan t) as [b |]; cbn [bind]; [| discriminate].
  intros H. injection H as <-. unfold slant_range_of. cbn [fst snd].
  set (c := cos (radians rx_lat) * cos (radians sat_long - radians rx_long))
    in *.
  set (r := 6378137 + sat_alt) in *.
  set (q := 6371000 / r) in *.
  set (s := sqrt (1 + q ^ 2 - 2 * q * c)) in *.
  change (q * (q * 1)) with (q ^ 2). fold s.
  split.
  - eexists. split; [reflexivity |].
    pose proof (asin_nonneg _ (proj1 Hz)) as Hlo.
    pose proof (asin_bound (r / (r * s) * sin (acos c))) as [_ Hhi].
    apply degrees_le in Hlo. apply degrees_le in Hhi.
    rewrite degrees_0 in Hlo. rewrite degrees_PI2 in Hhi. lra.
  - assert (Hc : -1 <= c <= 1).
    { unfold c.
      pose proof (COS_bound (radians rx_lat)).
      pose proof (COS_bound (radians sat_long - radians rx_long)).
      split; nra. }
    assert (Hr : 0 < r) by (unfold r; lra).
    assert (Hqr : q * r = 6371000) by (unfold q; field; lra).
    assert (Hq : 0 < q) by (unfold q; apply Rdiv_lt_0_compat; lra).
    assert (Hq1 : q < 1) by (unfold r in *; nra).
    assert (Hs2 : s * s = 1 + q * q - 2 * q * c).
    { unfold s. rewrite sqrt_sqrt by nra. ring. }
    assert (Hlo : 1 - q <= s).
    { destruct (Rle_dec (1 - q) s) as [H | H]; [exact H |].
      exfalso. apply Rnot_le_lt in H.
      assert (s * s < (1 - q) * (1 - q)) by nra. nra. }
    assert (Hhi : s <= 1 + q).
    { destruct (Rle_dec s (1 + q)) as [H | H]; [exact H |].
      exfalso. apply Rnot_le_lt in H.
      assert ((1 + q) * (1 + q) < s * s) by nra. nra. }
    unfold r in *. split; nra.
Qed.

Lemma spherical_result_ranges_witness :
  exists ang,
    _look_angles_spherical (-90) 90 45 default_sat_alt = Ok ang
    /\ (exists v, fst (fst ang) = Finite v /\ 0 <= v <= 90)
    /\ default_sat_alt + 7137 <= slant_range_of ang
       <= default_sat_alt + 12749137.
Proof.
  destruct (spherical_antipodal_west 90 45 default_sat_alt) as (v & d & H);
    [lra | unfold default_sat_alt; lra |].
  replace (90 - 180) with (-90) in H by lra.
  exists (Finite v, 360, d). split; [exact H |].
  apply (spherical_result_ranges (-90) 90 45 default_sat_alt);
    [unfold default_sat_alt; lra | exact H].
Defined.

End SphericalFacts.

(** ** The ellipsoidal solver *)
Module EllipsoidalFacts.
Import Pointing Formulas PyFacts PointingFacts.

Lemma grs80_e_sq_bounds : 0.006 < grs80_e_sq < 0.007.
Proof. unfold grs80_e_sq. lra. Qed.

Lemma prime_vertical_arg_pos (lat : R) : 0.993 <= 1 - grs80_e_sq * sin lat ^ 2 <= 1.
Proof.
  pose proof grs80_e_sq_bounds as He.
  pose proof (SIN_bound lat) as Hs.
  assert (0 <= sin lat ^ 2 <= 1) by nra.
  split; nra.
Qed.

(** The radius of curvature is between the equatorial radius and that
    radius divided by [1 - e^2]. *)
Lemma prime_vertical_bounds (lat : R) :
  6378137 <= prime_vertical lat <= 6378137 / 0.993.
Proof.
  unfold prime_vertical.
  pose proof (prime_vertical_arg_pos lat) as Ha.
  set (a := 1 - grs80_e_sq * sin lat ^ 2) in *.
  assert (Hs2 : sqrt a * sqrt a = a) by (apply sqrt_sqrt; lra).
  assert (Hs0 : 0 < sqrt a) by (apply sqrt_lt_R0; lra).
  assert (Hs1 : sqrt a <= 1).
  { destruct (Rle_dec (sqrt a) 1) as [H | H]; [exact H |].
    exfalso. apply Rnot_le_lt in H. nra. }
  assert (Hs3 : 0.993 <= sqrt a) by nra.
  split.
  - apply Rmult_le_reg_r with (sqrt a); [exact Hs0 |].
    unfold Rdiv. rewrite Rmult_assoc, Rinv_l by lra. nra.
  - apply Rmult_le_reg_r with (sqrt a); [exact Hs0 |].
    unfold Rdiv at 1. rewrite Rmult_assoc, Rinv_l by lra. nra.
Qed.

(** The solver in closed form: the vector from the receiver to the
    satellite, its east, north and up components, and what is returned. *)
Lemma ellipsoidal_front (sat_long rx_long rx_lat rx_height sat_alt : R) :
  let Ls := radians sat_long in
  let Lr := radians rx_long in
  let lat := radians rx_lat in
  let N := prime_vertical lat in
  let r := 6378137 + sat_alt in
  let dx := r * cos Ls - (N + rx_height) * cos Lr * cos lat in
  let dy := r * sin Ls - (N + rx_height) * sin Lr * cos lat in
  let dz := - ((N * (1 - grs80_e_sq) + rx_height) * sin lat) in
  let e := cos Lr * dy - sin Lr * dx in
  let n := cos lat * dz - sin lat * (cos Lr * dx + sin Lr * dy) in
  let u := cos lat * (cos Lr * dx + sin Lr * dy) + sin lat * dz in
  _look_angles_ellipsoidal sat_long rx_long rx_lat rx_height sat_alt
  = Ok (np_degrees (np_atan (np_truediv u (sqrt (e ^ 2 + n ^ 2)))),
        py_mod (degrees (math_atan2 e n)) 360,
        sqrt (dx * dx + dy * dy + dz * dz)).
Proof.
  intros Ls Lr lat N r dx dy dz e n u.
  unfold _look_angles_ellipsoidal.
  fold Ls Lr lat. fold grs80_e_sq.
  pose proof (prime_vertical_arg_pos lat) as Ha.
  rewrite math_sqrt_ok by lra. cbn [bind].
  rewrite truediv_ok
    by (assert (0 < sqrt (1 - grs80_e_sq * sin lat ^ 2))
          by (apply sqrt_lt_R0; lra); lra).
  cbn [bind]. fold (prime_vertical lat). fold N. fold r.
  cbv [matvec3 dot3 sub3 norm3].
  match goal with
  | |- context [math_atan2 ?e0 ?n0] =>
      replace e0 with e by (unfold e, dx, dy; ring);
      replace n0 with n by (unfold n, dx, dy, dz; ring)
  end.
  match goal with
  | |- context [np_truediv ?u0 _] =>
      replace u0 with u by (unfold u, dx, dy, dz; ring)
  end.
  match goal with
  | |- context [Ok (_, _, sqrt ?x)] =>
      replace x with (dx * dx + dy * dy + dz * dz)
        by (unfold dx, dy, dz; ring)
  end.
  rewrite math_sqrt_ok by nra. reflexivity.
Qed.

Lemma sin2_cos2_1 (x : R) : sin x * sin x + cos x * cos x = 1.
Proof. pose proof (sin2_cos2 x) as H. unfold Rsqr in H. exact H. Qed.

(** The rotation into the local frame keeps the length of the vector. *)
Lemma enu_norm (sL cL sl cl dx dy dz : R) :
  sL * sL + cL * cL = 1 -> sl * sl + cl * cl = 1 ->
  let e := cL * dy - sL * dx in
  let n := cl * dz - sl * (cL * dx + sL * dy) in
  let u := cl * (cL * dx + sL * dy) + sl * dz in
  e * e + n * n + u * u = dx * dx + dy * dy + dz * dz.
Proof.
  intros HL Hl e n u. unfold e, n, u.
  set (A := sl * sl + cl * cl - 1). set (B := sL * sL + cL * cL - 1).
  assert (HA : A = 0) by (unfold A; lra).
  assert (HB : B = 0) by (unfold B; lra).
  replace ((cL * dy - sL * dx) * (cL * dy - sL * dx)
           + (cl * dz - sl * (cL * dx + sL * dy))
             * (cl * dz - sl * (cL * dx + sL * dy))
           + (cl * (cL * dx + sL * dy) + sl * dz)
             * (cl * (cL * dx + sL * dy) + sl * dz))
    with (dx * dx + dy * dy + dz * dz
          + dx * dx * (B + cL * cL * A) + dy * dy * (B + sL * sL * A)
          + dz * dz * A + 2 * dx * dy * sL * cL * A)
    by (unfold A, B; ring).
  rewrite HA, HB. ring.
Qed.

(** X19.  The ellipsoidal solver has no failing input.  Its slant range is
    not negative; its elevation is between -90 and 90 degrees, or is a NaN,
    and that only when the slant range is 0, the receiver at the place of
    the satellite. *)
Theorem ellipsoidal_returns_in_range (sat_long rx_long rx_lat rx_height
    sat_alt : R) :
  exists el az d,
    _look_angles_ellipsoidal sat_long rx_long rx_lat rx_height sat_alt
    = Ok (el, az, d)
    /\ 0 <= d
    /\ match el with
       | Finite v => -90 <= v <= 90
       | NaN => d = 0
       | PosInf | NegInf => False
       end.
Proof.
  rewrite ellipsoidal_front. cbv zeta.
  set (Ls := radians sat_long). set (Lr := radians rx_long).
  set (lat := radians rx_lat). set (N := prime_vertical lat).
  set (r := 6378137 + sat_alt).
  set (dx := r * cos Ls - (N + rx_height) * cos Lr * cos lat).
  set (dy := r * sin Ls - (N + rx_height) * sin Lr * cos lat).
  set (dz := - ((N * (1 - grs80_e_sq) + rx_height) * sin lat)).
  pose proof (enu_norm (sin Lr) (cos Lr) (sin lat) (cos lat) dx dy dz
                (sin2_cos2_1 Lr) (sin2_cos2_1 lat)) as Hnorm.
  cbv zeta in Hnorm.
  set (e := cos Lr * dy - sin Lr * dx) in *.
  set (n := cos lat * dz - sin lat * (cos Lr * dx + sin Lr * dy)) in *.
  set (u := cos lat * (cos Lr * dx + sin Lr * dy) + sin lat * dz) in *.
  eexists. eexists. eexists. split; [reflexivity |].
  split; [apply sqrt_pos |].
  pose proof PI_RGT_0 as Hpi.
  assert (H90 : degrees (PI / 2) = 90)
    by (unfold degrees; field; lra).
  assert (Hm90 : degrees (- (PI / 2)) = -90)
    by (unfold degrees; field; lra).
  unfold np_truediv.
  destruct (Req_dec_T (sqrt (e ^ 2 + n ^ 2)) 0) as [Hz | Hnz].
  - destruct (Rlt_dec 0 u) as [Hu | Hu]; cbn [np_atan np_degrees].
    + rewrite H90. lra.
    + destruct (Rlt_dec u 0) as [Hu' | Hu']; cbn [np_atan np_degrees].
      * rewrite Hm90. lra.
      * assert (Hu0 : u = 0) by lra.
        apply sqrt_eq_0 in Hz; [| nra].
        assert (He : e = 0) by nra. assert (Hn : n = 0) by nra.
        rewrite <- Hnorm, He, Hn, Hu0.
        replace (0 * 0 + 0 * 0 + 0 * 0) with 0 by ring. apply sqrt_0.
  - cbn [np_atan np_degrees].
    destruct (atan_bound (u / sqrt (e ^ 2 + n ^ 2))) as [Hlo Hhi].
    rewrite <- H90, <- Hm90. split; apply degrees_le; lra.
Qed.

(** On the meridian of the satellite the east component is 0 and the
    north component is [- sin lat * (r - N e^2 cos lat)], whose second
    factor is positive for a satellite at or above the surface. *)
Lemma meridian_east_north (long rx_lat rx_height sat_alt : R) :
  0 <= sat_alt ->
  let L := radians long in
  let lat := radians rx_lat in
  let N := prime_vertical lat in
  let r := 6378137 + sat_alt in
  let dx := r * cos L - (N + rx_height) * cos L * cos lat in
  let dy := r * sin L - (N + rx_height) * sin L * cos lat in
  let dz := - ((N * (1 - grs80_e_sq) + rx_height) * sin lat) in
  cos L * dy - sin L * dx = 0
  /\ cos lat * dz - sin lat * (cos L * dx + sin L * dy)
     = - sin lat * (r - N * grs80_e_sq * cos lat)
  /\ 0 < r - N * grs80_e_sq * cos lat.
Proof.
  intros Halt L lat N r dx dy dz.
  pose proof (sin2_cos2_1 L) as HL.
  split; [unfold dx, dy; ring |]. split.
  - unfold dx, dy, dz.
    replace (cos lat * - ((N * (1 - grs80_e_sq) + rx_height) * sin lat)
             - sin lat * (cos L * (r * cos L - (N + rx_height) * cos L * cos lat)
                          + sin L * (r * sin L
                                     - (N + rx_height) * sin L * cos lat)))
      with (- sin lat * ((r - (N + rx_height) * cos lat)
                         * (sin L * sin L + cos L * cos L)
                         + cos lat * (N * (1 - grs80_e_sq) + rx_height)))
      by ring.
    rewrite HL. ring.
  - pose proof (prime_vertical_bounds lat) as HN. fold N in HN.
    pose proof grs80_e_sq_bounds as He.
    pose proof (COS_bound lat) as Hc.
    assert (HNe : 0 <= N * grs80_e_sq <= 6378137 / 0.993 * 0.007) by nra.
    assert (N * grs80_e_sq * cos lat <= 6378137 / 0.993 * 0.007) by nra.
    unfold r. lra.
Qed.

(** X20.  On the meridian of the satellite, from the northern hemisphere,
    the ellipsoidal solver points due south: azimuth 180. *)
Theorem ellipsoidal_same_meridian (long rx_lat rx_height sat_alt : R) :
  0 <= sat_alt ->
  0 < rx_lat < 90 ->
  exists el d,
    _look_angles_ellipsoidal long long rx_lat rx_height sat_alt
    = Ok (el, 180, d).
Proof.
  intros Halt Hlat. pose proof PI_RGT_0 as Hpi.
  destruct (meridian_east_north long rx_lat rx_height sat_alt Halt)
    as (He & Hn & Hpos).
  cbv zeta in He, Hn, Hpos.
  rewrite ellipsoidal_front; cbv zeta.
  rewrite He, Hn; eexists; eexists; f_equal; f_equal; f_equal.
  assert (Hl : 0 < radians rx_lat < PI).
  { assert (H1 : radians 0 < radians rx_lat) by (apply radians_lt; lra).
    assert (H2 : radians rx_lat < radians 180) by (apply radians_lt; lra).
    rewrite radians_0 in H1.
    replace (radians 180) with PI in H2 by (unfold radians; field; lra).
    lra. }
  assert (Hs : 0 < sin (radians rx_lat)) by (apply sin_gt_0; lra).
  set (k := 6378137 + sat_alt
            - prime_vertical (radians rx_lat) * grs80_e_sq
              * cos (radians rx_lat)) in *.
  assert (Hneg : - sin (radians rx_lat) * k < 0) by nra.
  unfold math_atan2.
  destruct (Rlt_dec 0 (- sin (radians rx_lat) * k)) as [H | _]; [lra |].
  destruct (Rlt_dec (- sin (radians rx_lat) * k) 0) as [_ | H]; [| lra].
  destruct (Rle_dec 0 0) as [_ | H]; [| lra].
  replace (0 / (- sin (radians rx_lat) * k)) with 0 by (field; lra).
  rewrite atan_0, Rplus_0_l, degrees_PI. apply py_mod_small. lra.
Qed.

Lemma ellipsoidal_same_meridian_witness :
  exists el d,
    _look_angles_ellipsoidal (-95) (-95) 33 0 default_sat_alt
    = Ok (el, 180, d).
Proof.
  apply (ellipsoidal_same_meridian (-95) 33 0 default_sat_alt);
    [unfold default_sat_alt; lra | lra].
Defined.

(** The squared length of the vector from the receiver to the satellite,
    between the squares of [r - (N + h)] and [r + (N + h)]. *)
Lemma range_sq_bounds (sLs cLs sLr cLr sl cl r N h e2 : R) :
  sLs * sLs + cLs * cLs = 1 -> sLr * sLr + cLr * cLr = 1 ->
  sl * sl + cl * cl = 1 ->
  0 <= r -> 0 <= N -> 0 <= h -> 0 <= e2 <= 1 ->
  let dx := r * cLs - (N + h) * cLr * cl in
  let dy := r * sLs - (N + h) * sLr * cl in
  let dz := - ((N * (1 - e2) + h) * sl) in
  let Q := dx * dx + dy * dy + dz * dz in
  Q <= (r + (N + h)) * (r + (N + h))
  /\ (N + h <= r -> (r - (N + h)) * (r - (N + h)) <= Q).
Proof.
  intros Hs Hr Hl Hr0 HN Hh He dx dy dz Q.
  set (m := cLr * cLs + sLr * sLs).
  assert (Hm : -1 <= m <= 1).
  { pose proof (Rle_0_sqr (cLr - cLs)) as H1.
    pose proof (Rle_0_sqr (sLr - sLs)) as H2.
    pose proof (Rle_0_sqr (cLr + cLs)) as H3.
    pose proof (Rle_0_sqr (sLr + sLs)) as H4.
    unfold Rsqr in H1, H2, H3, H4. unfold m. split; lra. }
  assert (Hcl : -1 <= cl <= 1).
  { pose proof (Rle_0_sqr sl) as H1. pose proof (Rle_0_sqr (1 - cl)) as H2.
    pose proof (Rle_0_sqr (1 + cl)) as H3.
    unfold Rsqr in H1, H2, H3. split; lra. }
  assert (Hk : -1 <= cl * m <= 1).
  { assert (0 <= (1 - cl) * (1 - m)) by (apply Rmult_le_pos; lra).
    assert (0 <= (1 + cl) * (1 + m)) by (apply Rmult_le_pos; lra).
    assert (0 <= (1 - cl) * (1 + m)) by (apply Rmult_le_pos; lra).
    assert (0 <= (1 + cl) * (1 - m)) by (apply Rmult_le_pos; lra).
    split; lra. }
  set (M := N + h) in *. assert (HM : 0 <= M) by (unfold M; lra).
  assert (Hxy : dx * dx + dy * dy
                = r * r - 2 * (r * M) * (cl * m) + M * M * (cl * cl)).
  { unfold dx, dy, m.
    replace ((r * cLs - M * cLr * cl) * (r * cLs - M * cLr * cl)
             + (r * sLs - M * sLr * cl) * (r * sLs - M * sLr * cl))
      with (r * r * (sLs * sLs + cLs * cLs)
            - 2 * (r * M) * (cl * (cLr * cLs + sLr * sLs))
            + M * M * (cl * cl) * (sLr * sLr + cLr * cLr)) by ring.
    rewrite Hs, Hr. ring. }
  assert (HrM : 0 <= r * M) by now apply Rmult_le_pos.
  assert (Hz0 : 0 <= N * (1 - e2) + h).
  { assert (0 <= N * (1 - e2)) by (apply Rmult_le_pos; lra). lra. }
  assert (Hz1 : N * (1 - e2) + h <= M).
  { assert (0 <= N * e2) by (apply Rmult_le_pos; lra). unfold M. lra. }
  assert (Hsl2 : 0 <= sl * sl) by exact (Rle_0_sqr sl).
  assert (Hw : (N * (1 - e2) + h) * (N * (1 - e2) + h) <= M * M)
    by (apply Rmult_le_compat; lra).
  assert (Hz : 0 <= dz * dz <= M * M * (sl * sl)).
  { unfold dz.
    replace (- ((N * (1 - e2) + h) * sl) * - ((N * (1 - e2) + h) * sl))
      with ((N * (1 - e2) + h) * (N * (1 - e2) + h) * (sl * sl)) by ring.
    split.
    - apply Rmult_le_pos; [exact (Rle_0_sqr _) | exact Hsl2].
    - now apply Rmult_le_compat_r. }
  assert (Hprod : - (r * M) <= (r * M) * (cl * m) <= r * M).
  { assert (0 <= (r * M) * (1 - cl * m)) by (apply Rmult_le_pos; lra).
    assert (0 <= (r * M) * (1 + cl * m)) by (apply Rmult_le_pos; lra).
    split; lra. }
  assert (Hcl2 : M * M * (cl * cl) + M * M * (sl * sl) = M * M)
    by (replace (M * M * (cl * cl) + M * M * (sl * sl))
          with (M * M * (sl * sl + cl * cl)) by ring; rewrite Hl; ring).
  unfold Q. split.
  - rewrite Hxy. lra.
  - intros HMr.
    assert (Hp : r - M <= r - M * (cl * m)).
    { assert (0 <= M * (1 - cl * m)) by (apply Rmult_le_pos; lra). lra. }
    assert (Hp2 : (r - M) * (r - M)
                  <= (r - M * (cl * m)) * (r - M * (cl * m)))
      by (apply Rmult_le_compat; lra).
    assert (Hcs : (r - M * (cl * m)) * (r - M * (cl * m))
                  <= dx * dx + dy * dy).
    { rewrite Hxy.
      assert (0 <= M * M * (cl * cl) * (1 - m * m)).
      { apply Rmult_le_pos.
        - apply Rmult_le_pos; [exact (Rle_0_sqr M) | exact (Rle_0_sqr cl)].
        - assert (0 <= (1 - m) * (1 + m)) by (apply Rmult_le_pos; lra). lra. }
      lra. }
    lra.
Qed.

Lemma ellipsoidal_slant_range_within (sat_long rx_long rx_lat rx_height
    sat_alt : R) (ang : angles) :
  0 <= sat_alt -> 0 <= rx_height ->
  _look_angles_ellipsoidal sat_long rx_long rx_lat rx_height sat_alt = Ok ang ->
  sat_alt - rx_height - 45000 <= slant_range_of ang
  /\ slant_range_of ang <= sat_alt + rx_height + 12802000.
Proof.
  intros Halt Hh. rewrite ellipsoidal_front. cbv zeta.
  intros H. injection H as <-. unfold slant_range_of. cbn [snd].
  pose proof (prime_vertical_bounds (radians rx_lat)) as HN.
  pose proof grs80_e_sq_bounds as He.
  set (N := prime_vertical (radians rx_lat)) in *.
  set (r := 6378137 + sat_alt).
  destruct (range_sq_bounds
              (sin (radians sat_long)) (cos (radians sat_long))
              (sin (radians rx_long)) (cos (radians rx_long))
              (sin (radians rx_lat)) (cos (radians rx_lat))
              r N rx_height grs80_e_sq
              (sin2_cos2_1 _) (sin2_cos2_1 _) (sin2_cos2_1 _))
    as [Hup Hlo]; try (unfold r; lra).
  cbv zeta in Hup, Hlo.
  set (Q := (r * cos (radians sat_long)
             - (N + rx_height) * cos (radians rx_long) * cos (radians rx_lat))
            * (r * cos (radians sat_long)
               - (N + rx_height) * cos (radians rx_long)
                 * cos (radians rx_lat))
            + (r * sin (radians sat_long)
               - (N + rx_height) * sin (radians rx_long)
                 * cos (radians rx_lat))
              * (r * sin (radians sat_long)
                 - (N + rx_height) * sin (radians rx_long)
                   * cos (radians rx_lat))
            + - ((N * (1 - grs80_e_sq) + rx_height) * sin (radians rx_lat))
              * - ((N * (1 - grs80_e_sq) + rx_height)
                   * sin (radians rx_lat))) in *.
  assert (HQ : 0 <= Q).
  { unfold Q. repeat apply Rplus_le_le_0_compat; exact (Rle_0_sqr _). }
  pose proof (sqrt_pos Q) as Hs0.
  pose proof (sqrt_sqrt Q HQ) as Hs2.
  assert (HN2 : 6378137 / 0.993 < 6423100) by lra.
  split.
  - destruct (Rle_dec (sat_alt - rx_height - 45000) 0) as [Hb | Hb]; [lra |].
    apply Rnot_le_lt in Hb.
    assert (HMr : N + rx_height <= r) by (unfold r; lra).
    specialize (Hlo HMr).
    assert (Hd : sat_alt - rx_height - 45000 <= r - (N + rx_height))
      by (unfold r; lra).
    destruct (Rle_dec (sat_alt - rx_height - 45000) (sqrt Q)) as [Hle | Hgt];
      [exact Hle |].
    exfalso. apply Rnot_le_lt in Hgt.
    set (b := sat_alt - rx_height - 45000) in *.
    assert (sqrt Q * sqrt Q < b * b) by (apply Rmult_le_0_lt_compat; lra).
    assert (b * b <= (r - (N + rx_height)) * (r - (N + rx_height)))
      by (apply Rmult_le_compat; lra).
    lra.
  - assert (Hd : r + (N + rx_height) <= sat_alt + rx_height + 12802000)
      by (unfold r; lra).
    assert (Hd0 : 0 <= r + (N + rx_height)) by (unfold r; lra).
    destruct (Rle_dec (sqrt Q) (r + (N + rx_height))) as [Hle | Hgt];
      [lra |].
    exfalso. apply Rnot_le_lt in Hgt.
    assert ((r + (N + rx_height)) * (r + (N + rx_height)) < sqrt Q * sqrt Q)
      by (apply Rmult_le_0_lt_compat; lra).
    lra.
Qed.

(** X21.  The slant range of the ellipsoidal solver is within 45 km of the
    difference of the altitudes on one side, and below the sum of the
    altitudes plus two Earth radii on the other. *)
Theorem ellipsoidal_slant_range_bounds (sat_long rx_long rx_lat rx_height
    sat_alt : R) (ang : angles) :
  0 <= sat_alt -> 0 <= rx_height ->
  _look_angles_ellipsoidal sat_long rx_long rx_lat rx_height sat_alt = Ok ang ->
  sat_alt - rx_height - 45000 <= slant_range_of ang
  /\ slant_range_of ang <= sat_alt + rx_height + 12802000.
Proof.
  exact (ellipsoidal_slant_range_within sat_long rx_long rx_lat rx_height
           sat_alt ang).
Qed.

Lemma ellipsoidal_slant_range_bounds_witness :
  default_sat_alt - 0 - 45000 <= slant_range_of (Finite 90, 0, default_sat_alt - 0)
  /\ slant_range_of (Finite 90, 0, default_sat_alt - 0)
     <= default_sat_alt + 0 + 12802000.
Proof.
  apply (ellipsoidal_slant_range_bounds 0 0 0 0 default_sat_alt).
  - unfold default_sat_alt. lra.
  - lra.
  - replace (default_sat_alt - 0) with default_sat_alt by ring.
    apply ellipsoidal_zenith. unfold default_sat_alt. lra.
Defined.

End EllipsoidalFacts.

(** ** The command line checks and the orchestrator *)
Module OrchestratorFacts.
Import Util Calc Pointing Main Formulas.
Import PyFacts UtilFacts LogFacts PathLossFacts PointingFacts.
Import ReceiverNoiseFacts CnrFacts EllipsoidalFacts.

Lemma is_None_false (o : option R) : is_None o = false -> exists x, o = Some x.
Proof. destruct o as [x |]; [now exists x | discriminate]. Qed.

(** Once [validate] has returned, the pointing step of [analyze] returns:
    in radar mode the altitude is there, and the ellipsoidal solver has no
    failing input. *)
Lemma validated_pointing (args : Args) :
  validate args = None -> exists look, analyze_pointing args = Ok look.
Proof.
  unfold validate, analyze_pointing, look_angles. intros Hv.
  cbn [String.eqb Ascii.eqb Bool.eqb].
  destruct (truthy (tx_power args) && is_None (tx_dish_size args)
            && is_None (tx_dish_gain args)); [discriminate |].
  destruct (radar args); cbn [negb bind].
  - destruct (radar_alt args) as [alt |]; [| discriminate].
    cbn [operand bind]. apply ellipsoidal_returns.
  - apply ellipsoidal_returns.
Qed.

(** X22.  What [validate] guarantees to [analyze]: when it returns, the
    pointing step returns, and in radar mode the cross section is given,
    so that the check of [path_loss] for it cannot fire. *)
Theorem validate_then_analyze (args : Args) :
  validate args = None ->
  (exists look, analyze_pointing args = Ok look)
  /\ (radar args = true ->
      exists alt rcs,
        radar_alt args = Some alt /\ radar_cross_section args = Some rcs).
Proof.
  intros Hv. split; [now apply validated_pointing |].
  intros Hradar. unfold validate in Hv. rewrite Hradar in Hv.
  destruct (truthy (tx_power args) && is_None (tx_dish_size args)
            && is_None (tx_dish_gain args)); [discriminate |].
  destruct (radar_alt args) as [alt |]; [| discriminate].
  destruct (radar_cross_section args) as [rcs |]; [| discriminate].
  exists alt, rcs. split; reflexivity.
Qed.

Lemma validate_then_analyze_witness :
  (exists look, analyze_pointing bistatic_radar_args = Ok look)
  /\ (radar bistatic_radar_args = true ->
      exists alt rcs,
        radar_alt bistatic_radar_args = Some alt
        /\ radar_cross_section bistatic_radar_args = Some rcs).
Proof.
  apply validate_then_analyze. reflexivity.
Defined.

Lemma truthy_nonzero (p : R) : p <> 0 -> truthy (Some p) = true.
Proof.
  intros Hp. unfold truthy. destruct (Req_dec_T p 0); [contradiction | reflexivity].
Qed.

Lemma truthy_zero : truthy (Some 0) = false.
Proof.
  unfold truthy. destruct (Req_dec_T 0 0) as [_ | H]; [reflexivity | now elim H].
Qed.

(** X23.  A transmit power without a transmit antenna is refused by
    [validate], unless the power is 0 dBW: the condition tests the truth
    value of the float, [validate] returns, and [analyze] then ends in a
    [TypeError] on the missing dish size. *)
Theorem validate_zero_tx_power (abs_to_db : R -> result R) (args : Args)
    (p : R) :
  eirp args = None ->
  tx_power args = Some p ->
  tx_dish_size args = None ->
  tx_dish_gain args = None ->
  radar args = false ->
  (p <> 0 ->
   validate args
   = Some "Define either --tx-dish-size or --tx-dish-gain  using option --tx-power"%string)
  /\ (p = 0 ->
      validate args = None /\ analyze abs_to_db args = Raise TypeError).
Proof.
  intros He Hp Hs Hg Hr. split.
  - intros Hnz. unfold validate. rewrite Hp, Hs, Hg, truthy_nonzero by exact Hnz.
    reflexivity.
  - intros ->.
    assert (Hv : validate args = None).
    { unfold validate. rewrite Hp, Hs, Hg, Hr, truthy_zero. reflexivity. }
    split; [exact Hv |].
    destruct (validated_pointing args Hv) as (look & Hlook).
    unfold analyze. rewrite Hlook. cbn [bind].
    unfold analyze_eirp. rewrite He, Hg, Hs. reflexivity.
Qed.

Lemma validate_zero_tx_power_witness :
  validate (tx_power_args 10)
  = Some "Define either --tx-dish-size or --tx-dish-gain  using option --tx-power"%string
  /\ validate (tx_power_args 0) = None
  /\ analyze (fun x => l <- math_log10 x ;; Ok (10 * l)) (tx_power_args 0)
     = Raise TypeError.
Proof.
  split.
  - apply (proj1 (validate_zero_tx_power
                    (fun x => l <- math_log10 x ;; Ok (10 * l))
                    (tx_power_args 10) 10
                    eq_refl eq_refl eq_refl eq_refl eq_refl)).
    lra.
  - apply (proj2 (validate_zero_tx_power
                    (fun x => l <- math_log10 x ;; Ok (10 * l))
                    (tx_power_args 0) 0
                    eq_refl eq_refl eq_refl eq_refl eq_refl)).
    reflexivity.
Defined.

(** X24.  The frequency is not checked anywhere: with the EIRP given, a
    frequency of 0 passes [validate] and ends [analyze] in the division
    that computes the wavelength. *)
Theorem analyze_zero_frequency (abs_to_db : R -> result R) (args : Args)
    (e : R) :
  validate args = None ->
  eirp args = Some e ->
  freq args = 0 ->
  analyze abs_to_db args = Raise ZeroDivisionError.
Proof.
  intros Hv He Hf.
  destruct (validated_pointing args Hv) as (look & Hlook).
  unfold analyze. rewrite Hlook. cbn [bind].
  unfold analyze_eirp. rewrite He. cbn [bind].
  rewrite Hf, path_loss_freq_zero. reflexivity.
Qed.

Lemma analyze_zero_frequency_witness :
  analyze (fun x => l <- math_log10 x ;; Ok (10 * l)) (downlink_args 0)
  = Raise ZeroDivisionError.
Proof.
  apply (analyze_zero_frequency _ (downlink_args 0) 50); reflexivity.
Defined.

(** X25.  A satellite downlink with physical inputs goes through: with
    the EIRP, the receive gain and the LNB noise figure given, noise
    figures and a coax length that are not negative, a positive frequency,
    bandwidth and antenna temperature, and [abs_to_db] defined on the
    positive reals, [analyze] returns.  The slant range is at least the
    geostationary altitude less 45 km, the path loss is the one-way loss at
    that range, the total noise figure is at least the LNB's, the system
    temperature at least the antenna's, and the capacity is positive. *)
Theorem analyze_downlink_returns (abs_to_db : R -> result R) (args : Args)
    (e g nf : R) :
  (forall x, 0 < x -> exists y, abs_to_db x = Ok y) ->
  radar args = false ->
  eirp args = Some e ->
  rx_dish_gain args = Some g ->
  lnb_noise_fig args = Some nf ->
  0 <= nf -> 0 <= rx_noise_fig args -> 0 <= coax_length args ->
  0 < freq args -> 0 < if_bw args -> 0 < antenna_noise_temp args ->
  exists res,
    analyze abs_to_db args = Ok res
    /\ eirp_db res = e
    /\ 35741000 <= slant_range_of (pointing res)
    /\ path_loss_db res
       = one_way_loss (wavelength_of (freq args))
           (slant_range_of (pointing res))
    /\ nf <= noise_fig_db_total res
    /\ antenna_noise_temp args <= noise_temp_k_system res
    /\ 0 < capacity_bps res.
Proof.
  intros Habs Hradar He Hg Hnf Hnf0 Hrx Hlen Hf Hbw Hant.
  unfold analyze, analyze_pointing, look_angles. rewrite Hradar.
  cbn [negb bind String.eqb Ascii.eqb Bool.eqb].
  destruct (ellipsoidal_returns (sat_long args) (rx_long args) (rx_lat args)
              0 35786000) as (ang & Hang).
  rewrite Hang. cbn [bind].
  destruct (ellipsoidal_slant_range_within (sat_long args) (rx_long args)
              (rx_lat args) 0 35786000 ang) as [Hlo _];
    [lra | lra | exact Hang |].
  assert (Hlo' : 35741000 <= slant_range_of ang) by lra.
  assert (Hd : 0 < slant_range_of ang) by lra.
  unfold analyze_eirp. rewrite He. cbn [bind].
  rewrite path_loss_prologue by lra. cbv zeta.
  rewrite math_log10_ok
    by (apply four_pi_ratio_pos; [exact Hd | now apply wavelength_pos]).
  cbn [bind]. rewrite Hg. cbn [bind].
  rewrite coax_loss_nf_T0. cbn [bind]. rewrite Hnf. cbn [bind].
  set (coax := coax_length args * (8 / 100)).
  assert (Hcoax : 0 <= coax) by (unfold coax; lra).
  destruct (cascade_at_least_first_stage nf [coax; rx_noise_fig args]
              [lnb_gain args; - coax])
    as (v & Hv & Hle);
    [discriminate | reflexivity
    | apply Forall_cons; [exact Hcoax |];
      apply Forall_cons; [exact Hrx | apply Forall_nil] |].
  rewrite Hv. cbn [bind].
  assert (Hte : 0 <= noise_fig_to_noise_temp v).
  { unfold noise_fig_to_noise_temp.
    pose proof (db_to_abs_ge_1 v ltac:(lra)). unfold T0. lra. }
  assert (Hsys : 0 < rx_sys_noise_temp (antenna_noise_temp args)
                       (noise_fig_to_noise_temp v))
    by (unfold rx_sys_noise_temp; lra).
  destruct (Habs _ Hsys) as (T_db & HT). rewrite HT. cbn [bind].
  unfold cnr. rewrite math_log10_ok by exact Hbw. cbn [bind].
  unfold capacity.
  match goal with
  | |- context [math_log2 (1 + db_to_abs ?c)] =>
      pose proof (db_to_abs_pos c) as Hsnr;
      rewrite (math_log2_ok (1 + db_to_abs c)) by lra
  end.
  cbn [bind].
  eexists. split; [reflexivity |].
  cbn [eirp_db pointing path_loss_db noise_fig_db_total noise_temp_k_system
       capacity_bps].
  repeat split.
  - exact Hlo'.
  - exact Hle.
  - unfold rx_sys_noise_temp. lra.
  - apply Rmult_lt_0_compat; [exact Hbw |].
    unfold log2. apply Rdiv_lt_0_compat; [| apply ln_2_pos].
    rewrite <- ln_1. apply ln_increasing; lra.
Qed.

Lemma analyze_downlink_returns_witness :
  exists res,
    analyze (fun x => l <- math_log10 x ;; Ok (10 * l))
      (downlink_args 12000000000) = Ok res
    /\ eirp_db res = 50
    /\ 35741000 <= slant_range_of (pointing res)
    /\ path_loss_db res
       = one_way_loss (wavelength_of 12000000000)
           (slant_range_of (pointing res))
    /\ 1 <= noise_fig_db_total res
    /\ 30 <= noise_temp_k_system res
    /\ 0 < capacity_bps res.
Proof.
  apply (analyze_downlink_returns
           (fun x => l <- math_log10 x ;; Ok (10 * l))
           (downlink_args 12000000000) 50 35 1);
    try reflexivity; cbn [downlink_args rx_noise_fig coax_length freq if_bw
                          antenna_noise_temp]; try lra.
  intros x Hx. rewrite math_log10_ok by exact Hx. eexists. reflexivity.
Defined.

End OrchestratorFacts.
